(** * The Pyth EVM price pusher: [Pusher.shouldUpdate], [Pusher.start] and
      [Pusher.pushUpdates] of [pyth-evm-price-pusher/src/pusher.ts]

    The staleness predicate is embedded as a boolean function, the loop body
    of [start] as a list traversal, and [pushUpdates] together with the two
    listeners it attaches as the continuations of its [await]s, put together
    in a small transition system of the JavaScript run: each step is one
    macrotask (a turn of [start]'s loop, the settling of an awaited promise,
    an event of the sent transaction). *)

From Stdlib Require Import ZArith String Ascii List Bool Lia.
From Stdlib Require Import Floats.SpecFloat.
Import ListNotations.

Local Open Scope string_scope.
Local Open Scope list_scope.
Local Open Scope Z_scope.

(** ** JavaScript numbers

    A JavaScript [number] is an IEEE 754 binary64 value; arithmetic rounds to
    nearest, ties to even.  [spec_float] at precision 53 and maximal exponent
    1024 is that format (with a single NaN, which is all JavaScript can
    observe). *)
Module JsNumber.

Definition number : Type := spec_float.

Definition prec : Z := 53.
Definition emax : Z := 1024.

(** The number denoted by an integer literal such as [100]. *)
Definition ofZ (z : Z) : number := binary_normalize prec emax z 0 false.

Definition NaN : number := S754_nan.

(** [x - y], [x / y], [x * y] *)
Definition sub (x y : number) : number := SFsub prec emax x y.
Definition div (x y : number) : number := SFdiv prec emax x y.
Definition mul (x y : number) : number := SFmul prec emax x y.

(** [Math.abs(x)] *)
Definition Math_abs (x : number) : number := SFabs x.

(** [x >= y]; false as soon as one side is NaN. *)
Definition geb (x y : number) : bool := SFleb y x.

(** [x === y] on numbers; false as soon as one side is NaN, true of [+0]
    and [-0]. *)
Definition eqb (x y : number) : bool := SFeqb x y.

(** [x === 0] *)
Definition is_zero (x : number) : bool := eqb x (S754_zero false).

(** Neither NaN nor an infinity. *)
Definition is_finite (x : number) : bool :=
  match x with
  | S754_zero _ | S754_finite _ _ _ => true
  | S754_infinity _ | S754_nan => false
  end.

End JsNumber.

Import JsNumber.

(** ** Strings *)

(** [hay.includes(needle)] *)
Fixpoint includes (hay needle : string) : bool :=
  String.prefix needle hay ||
  match hay with
  | EmptyString => false
  | String _ rest => includes rest needle
  end.

(** ** Data model *)

Definition HexString : Type := string.

(** Modelled from the spec: the types [UnixTimestamp] (of the Pyth SDK) and
    [DurationInSeconds] (of [utils.ts]), whose declarations are not among the
    sources.  A publish timestamp is a number of whole seconds, and so is the
    time-difference threshold; on such numbers JavaScript's [-], [+], [<] and
    [>=] are the integer operations (exactly so below 2^53), and they are
    embedded in [Z]. *)
Definition UnixTimestamp : Type := Z.
Definition DurationInSeconds : Type := Z.

(** Modelled from the spec: [PctNumber] of [utils.ts], a percentage. *)
Definition PctNumber : Type := number.

(** Modelled from the spec: the type [PriceInfo] of [price-listener.ts], which
    is not among the sources: a price, its confidence interval and the publish
    timestamp.  [pusher.ts] passes [price] and [conf] through [Number], so
    they are the texts the price service sends. *)
Record PriceInfo : Type := {
  price : string;
  conf : string;
  publishTime : UnixTimestamp
}.

(** Modelled from the spec: the type [PriceConfig] of [price-config.ts], which
    is not among the sources: the identity of a feed (identifier and alias)
    and its three thresholds.  These are the fields [pusher.ts] reads. *)
Record PriceConfig : Type := {
  alias : string;
  id : HexString;
  timeDifference : DurationInSeconds;
  priceDeviation : PctNumber;
  confidenceRatio : PctNumber
}.

(** Modelled from the spec: the interface [PriceListener] of
    [price-listener.ts], [getLatestPriceInfo(priceId)] with [None] for
    [undefined].  A listener is read synchronously, so within one turn of
    [start]'s loop it is a fixed function. *)
Definition PriceListener : Type := HexString -> option PriceInfo.

Definition getLatestPriceInfo (l : PriceListener) (priceId : HexString) :
  option PriceInfo := l priceId.

(** [Error]: only [message] is read. *)
Record Error : Type := { message : string }.

(** [a?.publishTime || 0]: the right operand is taken when the left one is
    [undefined] or falsy, and the only falsy timestamp is [0]. *)
Definition publishTime_or (a : option PriceInfo) (d : Z) : Z :=
  match a with
  | None => d
  | Some i => if publishTime i =? 0 then d else publishTime i
  end.

(** ** The staleness predicate *)

Section Program.

(** The builtin [Number(text)], string to number. *)
Variable Number : string -> number.

(** [sourceLatestPrice.publishTime - targetLatestPrice.publishTime] *)
Definition timeDifferenceOf (sourceLatestPrice targetLatestPrice : PriceInfo) : Z :=
  publishTime sourceLatestPrice - publishTime targetLatestPrice.

(** [(Math.abs(Number(s.price) - Number(t.price)) / Number(t.price)) * 100] *)
Definition priceDeviationPct (sourceLatestPrice targetLatestPrice : PriceInfo) : number :=
  mul
    (div
       (Math_abs (sub (Number (price sourceLatestPrice))
                      (Number (price targetLatestPrice))))
       (Number (price targetLatestPrice)))
    (ofZ 100).

(** [Math.abs((Number(s.conf) / Number(s.price)) * 100)] *)
Definition confidenceRatioPct (sourceLatestPrice : PriceInfo) : number :=
  Math_abs
    (mul (div (Number (conf sourceLatestPrice)) (Number (price sourceLatestPrice)))
         (ofZ 100)).

(** [Pusher.shouldUpdate]; its [console.log] lines are diagnostics and are
    left out. *)
Definition shouldUpdate (priceConfig : PriceConfig)
    (sourceLatestPrice targetLatestPrice : option PriceInfo) : bool :=
  match sourceLatestPrice with
  | None => false
  | Some s =>
    match targetLatestPrice with
    | None => true
    | Some t =>
      if publishTime s <? publishTime t then false
      else
        (timeDifferenceOf s t >=? timeDifference priceConfig)
        || geb (priceDeviationPct s t) (priceDeviation priceConfig)
        || geb (confidenceRatioPct s) (confidenceRatio priceConfig)
    end
  end.

(** The two signals as the specification words them:
    [|s.price - t.price| / |t.price| * 100] and [|s.conf / s.price| * 100]. *)
Definition spec_priceDeviationPct (s t : PriceInfo) : number :=
  mul (div (Math_abs (sub (Number (price s)) (Number (price t))))
           (Math_abs (Number (price t))))
      (ofZ 100).

Definition spec_confidenceRatioPct (s : PriceInfo) : number :=
  mul (Math_abs (div (Number (conf s)) (Number (price s)))) (ofZ 100).

(** ** The loop body of [start] *)

(** The [for (const priceConfig of this.priceConfigs)] loop: both listeners
    are read once per feed, and the publish time pushed beside a selected feed
    comes from the same [targetLatestPrice] that [shouldUpdate] was given. *)
Fixpoint selectBatch (priceConfigs : list PriceConfig)
    (targetPriceListener sourcePriceListener : PriceListener) :
    list PriceConfig * list UnixTimestamp :=
  match priceConfigs with
  | [] => ([], [])
  | priceConfig :: rest =>
    let priceId := id priceConfig in
    let targetLatestPrice := getLatestPriceInfo targetPriceListener priceId in
    let sourceLatestPrice := getLatestPriceInfo sourcePriceListener priceId in
    let '(pricesToPush, pubTimesToPush) :=
      selectBatch rest targetPriceListener sourcePriceListener in
    if shouldUpdate priceConfig sourceLatestPrice targetLatestPrice
    then (priceConfig :: pricesToPush,
          (publishTime_or targetLatestPrice 0 + 1) :: pubTimesToPush)
    else (pricesToPush, pubTimesToPush)
  end.

(** ** [pushUpdates] *)

(** The lines written to the console. *)
Inductive console : Type :=
| LogPushing (feeds : list string)
| LogUpdateFee (updateFee : Z)
| LogSuccessful (hash : string)
| LogAlreadyUpdated
| LogNonceIncorrect
| ErrorOutOfBalance
| ErrorUnidentified (err : Error).

(** What the pusher asks of its collaborators, in the order it asks. *)
Inductive effect : Type :=
| GetPriceFeedsUpdateData (priceIds : list HexString)
| GetUpdateFee (updateDataSize : nat)
| SendUpdatePriceFeedsIfNecessary (priceFeedUpdateData : list HexString)
    (priceIds : list HexString) (pubTimesToPush : list UnixTimestamp) (value : Z)
| Sleep (milliseconds : Z)
| Console (line : console).

(** Where a call of [pushUpdates] stands: suspended at its first [await],
    suspended at its second, or returned with the transaction sent and the
    two listeners attached ([hashed]: [transactionHash] has fired). *)
Inductive push : Type :=
| AwaitingUpdateData (pricesToPush : list PriceConfig) (priceIds : list HexString)
    (pubTimesToPush : list UnixTimestamp)
| AwaitingUpdateFee (priceFeedUpdateData : list HexString) (priceIds : list HexString)
    (pubTimesToPush : list UnixTimestamp)
| Sent (hashed : bool).

(** [addLeading0x], of [utils.ts]. *)
Variable addLeading0x : HexString -> HexString.

(** [pushUpdates] from its entry to its first [await]: [None] when it returns
    at once. *)
Definition pushUpdates (pricesToPush : list PriceConfig)
    (pubTimesToPush : list UnixTimestamp) : list effect * option push :=
  if (length pricesToPush =? 0)%nat then ([], None)
  else
    let priceIds := map (fun priceConfig => addLeading0x (id priceConfig)) pricesToPush in
    ([GetPriceFeedsUpdateData priceIds],
     Some (AwaitingUpdateData pricesToPush priceIds pubTimesToPush)).

(** From the fulfilment of [getPriceFeedsUpdateData] to the second [await]. *)
Definition pushUpdates_withUpdateData (pricesToPush : list PriceConfig)
    (priceIds : list HexString) (pubTimesToPush : list UnixTimestamp)
    (priceFeedUpdateData : list HexString) : list effect * push :=
  ([Console (LogPushing
      (map (fun priceConfig => (alias priceConfig ++ " (" ++ id priceConfig ++ ")")%string)
           pricesToPush));
    GetUpdateFee (length priceFeedUpdateData)],
   AwaitingUpdateFee priceFeedUpdateData priceIds pubTimesToPush).

(** From the fulfilment of [getUpdateFee(...).call()] to the end. *)
Definition pushUpdates_withUpdateFee (priceFeedUpdateData : list HexString)
    (priceIds : list HexString) (pubTimesToPush : list UnixTimestamp)
    (updateFee : Z) : list effect * push :=
  ([Console (LogUpdateFee updateFee);
    SendUpdatePriceFeedsIfNecessary priceFeedUpdateData priceIds pubTimesToPush updateFee],
   Sent false).

(** The listener of ["transactionHash"]. *)
Definition onTransactionHash (hash : string) : list effect :=
  [Console (LogSuccessful hash)].

(** How a listener ends: it returns, or it throws. *)
Inductive completion : Type :=
| Returns
| Throws (err : Error).

Definition no_fresh_prices : string :=
  "no prices in the submitted batch have fresh prices, so this update will have no effect".
Definition incorrect_nonce : string :=
  "the tx doesn't have the correct nonce.".
Definition not_enough_funds : string :=
  "sender doesn't have enough funds to send tx.".

(** The listener of ["error"]. *)
Definition onError (err : Error) : list effect * completion :=
  if includes (message err) no_fresh_prices then
    ([Console LogAlreadyUpdated], Returns)
  else if includes (message err) incorrect_nonce then
    ([Console LogNonceIncorrect], Returns)
  else if includes (message err) not_enough_funds then
    ([Console ErrorOutOfBalance], Throws err)
  else
    ([Console (ErrorUnidentified err)], Returns).

(** ** The run of the process

    [start] never awaits [pushUpdates] and attaches no rejection handler to
    the promise it returns, and [pushUpdates] does not await the sent
    transaction: a call of [pushUpdates] lives on while the loop of [start]
    goes its own way.  One step of the process is one macrotask.

    The program has no [try], no [catch] and no handler for the process's
    [uncaughtException] or [unhandledRejection]: what a listener throws
    leaves every frame of the program, and Node ends the process on it. *)

(** The fields of the [Pusher] object that the loop reads. *)
Record Pusher : Type := {
  priceConfigs : list PriceConfig;
  cooldownDuration : DurationInSeconds
}.

Variable this : Pusher.

(** Node's [--unhandled-rejections] mode: [true] for [throw] (a rejected
    promise that nothing handles ends the process), [false] for [warn]. *)
Variable unhandledRejectionsThrow : bool.

Record process : Type := {
  (** the turns of [start]'s loop taken so far *)
  turns : nat;
  (** the calls of [pushUpdates] that have not ended, by the turn that made them *)
  pushes : list (nat * push);
  (** what the program has asked and written so far, oldest first *)
  output : list effect;
  (** the rejections of promises that no handler took *)
  unhandledRejections : list Error;
  (** the exception that ended the process, if one did *)
  uncaught : option Error
}.

Definition initial : process :=
  {| turns := 0; pushes := []; output := []; unhandledRejections := [];
     uncaught := None |}.

Fixpoint push_of (n : nat) (ps : list (nat * push)) : option push :=
  match ps with
  | [] => None
  | (m, st) :: rest => if (m =? n)%nat then Some st else push_of n rest
  end.

Fixpoint set_push (n : nat) (st : push) (ps : list (nat * push)) : list (nat * push) :=
  match ps with
  | [] => []
  | (m, st') :: rest =>
    if (m =? n)%nat then (m, st) :: rest else (m, st') :: set_push n st rest
  end.

Fixpoint drop_push (n : nat) (ps : list (nat * push)) : list (nat * push) :=
  match ps with
  | [] => []
  | (m, st') :: rest =>
    if (m =? n)%nat then rest else (m, st') :: drop_push n rest
  end.

Inductive event : Type :=
(** [start]'s loop takes a turn (at the call of [start], and each time the
    awaited [sleep] is over), the listeners being as given *)
| Turn (targetPriceListener sourcePriceListener : PriceListener)
(** the promise of [getPriceFeedsUpdateData] of the push of turn [n] settles *)
| UpdateDataFulfilled (n : nat) (priceFeedUpdateData : list HexString)
| UpdateDataRejected (n : nat) (err : Error)
(** the promise of [getUpdateFee(...).call()] settles *)
| UpdateFeeFulfilled (n : nat) (updateFee : Z)
| UpdateFeeRejected (n : nat) (err : Error)
(** the sent transaction emits ["transactionHash"] or ["error"] *)
| TransactionHash (n : nat) (hash : string)
| TransactionError (n : nat) (err : Error).

(** An [await] of [pushUpdates] throws: the promise [pushUpdates] returned is
    rejected, and [start] has dropped it. *)
Definition pushUpdates_rejected (p : process) (n : nat) (err : Error) : process :=
  {| turns := turns p;
     pushes := drop_push n (pushes p);
     output := output p;
     unhandledRejections := unhandledRejections p ++ [err];
     uncaught := if unhandledRejectionsThrow then Some err else None |}.

(** [None]: the event cannot happen in [p] (the process has ended, or no call
    of [pushUpdates] waits for it). *)
Definition step (p : process) (e : event) : option process :=
  match uncaught p with
  | Some _ => None
  | None =>
    match e with
    | Turn targetPriceListener sourcePriceListener =>
      let '(pricesToPush, pubTimesToPush) :=
        selectBatch (priceConfigs this) targetPriceListener sourcePriceListener in
      let '(out, started) := pushUpdates pricesToPush pubTimesToPush in
      Some {| turns := S (turns p);
              pushes := pushes p ++
                        match started with
                        | Some st => [(turns p, st)]
                        | None => []
                        end;
              output := output p ++ out ++ [Sleep (cooldownDuration this * 1000)];
              unhandledRejections := unhandledRejections p;
              uncaught := None |}
    | UpdateDataFulfilled n priceFeedUpdateData =>
      match push_of n (pushes p) with
      | Some (AwaitingUpdateData pricesToPush priceIds pubTimesToPush) =>
        let '(out, st) :=
          pushUpdates_withUpdateData pricesToPush priceIds pubTimesToPush
                                     priceFeedUpdateData in
        Some {| turns := turns p;
                pushes := set_push n st (pushes p);
                output := output p ++ out;
                unhandledRejections := unhandledRejections p;
                uncaught := None |}
      | _ => None
      end
    | UpdateDataRejected n err =>
      match push_of n (pushes p) with
      | Some (AwaitingUpdateData _ _ _) => Some (pushUpdates_rejected p n err)
      | _ => None
      end
    | UpdateFeeFulfilled n updateFee =>
      match push_of n (pushes p) with
      | Some (AwaitingUpdateFee priceFeedUpdateData priceIds pubTimesToPush) =>
        let '(out, st) :=
          pushUpdates_withUpdateFee priceFeedUpdateData priceIds pubTimesToPush
                                    updateFee in
        Some {| turns := turns p;
                pushes := set_push n st (pushes p);
                output := output p ++ out;
                unhandledRejections := unhandledRejections p;
                uncaught := None |}
      | _ => None
      end
    | UpdateFeeRejected n err =>
      match push_of n (pushes p) with
      | Some (AwaitingUpdateFee _ _ _) => Some (pushUpdates_rejected p n err)
      | _ => None
      end
    | TransactionHash n hash =>
      match push_of n (pushes p) with
      | Some (Sent _) =>
        Some {| turns := turns p;
                pushes := set_push n (Sent true) (pushes p);
                output := output p ++ onTransactionHash hash;
                unhandledRejections := unhandledRejections p;
                uncaught := None |}
      | _ => None
      end
    | TransactionError n err =>
      match push_of n (pushes p) with
      | Some (Sent _) =>
        let '(out, c) := onError err in
        Some {| turns := turns p;
                pushes := drop_push n (pushes p);
                output := output p ++ out;
                unhandledRejections := unhandledRejections p;
                uncaught := match c with
                            | Returns => None
                            | Throws thrown => Some thrown
                            end |}
      | _ => None
      end
    end
  end.

Fixpoint run (p : process) (es : list event) : option process :=
  match es with
  | [] => Some p
  | e :: rest =>
    match step p e with
    | Some p' => run p' rest
    | None => None
    end
  end.

(** A call of [pushUpdates] has reached its outcome once the transaction it
    sent was accepted; one that was skipped or failed is no longer among the
    [pushes]. *)
Definition completed (st : push) : bool :=
  match st with
  | Sent hashed => hashed
  | _ => false
  end.

Definition in_flight (p : process) : bool :=
  existsb (fun np => negb (completed (snd np))) (pushes p).

(** Strict sequencing as the specification words it: along the run, every
    turn of the loop begins with no push short of its outcome. *)
Fixpoint spec_strictly_sequential (p : process) (es : list event) : bool :=
  match es with
  | [] => true
  | e :: rest =>
    match e with
    | Turn _ _ => negb (in_flight p)
    | _ => true
    end
    && match step p e with
       | Some p' => spec_strictly_sequential p' rest
       | None => true
       end
  end.

End Program.

(** ** The pusher with one set of thresholds

    The variant of [Pusher] that holds the three thresholds itself and is
    given the identifiers of the feeds: its [shouldUpdate] reads the two
    listeners and goes on as above. *)
Module OneThreshold.

Record Pusher : Type := {
  priceIds : list HexString;
  timeDifferenceThreshold : DurationInSeconds;
  priceDeviationThreshold : PctNumber;
  confidenceRatioThreshold : PctNumber;
  cooldownDuration : DurationInSeconds
}.

Definition shouldUpdate (Number : string -> number) (this : Pusher)
    (targetPriceListener srcPriceListener : PriceListener) (priceId : HexString) : bool :=
  let targetLatestPrice := getLatestPriceInfo targetPriceListener priceId in
  let srcLatestPrice := getLatestPriceInfo srcPriceListener priceId in
  match srcLatestPrice with
  | None => false
  | Some s =>
    match targetLatestPrice with
    | None => true
    | Some t =>
      if publishTime s <? publishTime t then false
      else
        let timeDifference := publishTime s - publishTime t in
        let priceDeviationPct :=
          mul (div (Math_abs (sub (Number (price s)) (Number (price t))))
                   (Number (price t)))
              (ofZ 100) in
        let confidenceRatioPct :=
          Math_abs (mul (div (Number (conf s)) (Number (price s))) (ofZ 100)) in
        (timeDifference >=? timeDifferenceThreshold this)
        || geb priceDeviationPct (priceDeviationThreshold this)
        || geb confidenceRatioPct (confidenceRatioThreshold this)
    end
  end.

(** [start]'s [this.priceIds.filter(this.shouldUpdate.bind(this))] *)
Definition pricesToPush (Number : string -> number) (this : Pusher)
    (targetPriceListener srcPriceListener : PriceListener) : list HexString :=
  filter (shouldUpdate Number this targetPriceListener srcPriceListener) (priceIds this).

(** The thresholds of the pusher as the configuration of one feed. *)
Definition config_of (this : Pusher) (priceId : HexString) : PriceConfig :=
  {| alias := priceId; id := priceId;
     timeDifference := timeDifferenceThreshold this;
     priceDeviation := priceDeviationThreshold this;
     confidenceRatio := confidenceRatioThreshold this |}.

End OneThreshold.

(** ** Concrete collaborators, to run the definitions *)

Definition digit_of (c : ascii) : option Z :=
  let n := Z.of_N (N_of_ascii c) in
  if (48 <=? n) && (n <=? 57) then Some (n - 48) else None.

Fixpoint digits_value (acc : Z) (digits : string) : option Z :=
  match digits with
  | EmptyString => Some acc
  | String c rest =>
    match digit_of c with
    | Some d => digits_value (10 * acc + d) rest
    | None => None
    end
  end.

(** [Number] on the texts the price service sends: decimal digits, with a
    minus sign before them or not.  Such a text denotes the binary64 number
    nearest to its integer.  [Number] reads other texts too (fractions,
    exponents, blanks around); this function answers NaN on them and is only
    applied to integer texts. *)
Definition NumberOfIntegerText (text : string) : number :=
  match text with
  | EmptyString => ofZ 0
  | String "-"%char EmptyString => NaN
  | String "-"%char digits =>
    match digits_value 0 digits with
    | Some 0 => S754_zero true
    | Some v => ofZ (- v)
    | None => NaN
    end
  | _ =>
    match digits_value 0 text with
    | Some v => ofZ v
    | None => NaN
    end
  end.

(** [addLeading0x] by its name: the identifier with ["0x"] before it, unless
    it is there already. *)
Definition addLeading0x_text (id : HexString) : HexString :=
  if String.prefix "0x" id then id else ("0x" ++ id)%string.

(** A feed that is pushed after 60 seconds, at 1% of deviation or at 10% of
    confidence ratio. *)
Definition feedA : PriceConfig :=
  {| alias := "A"; id := "aa"; timeDifference := 60;
     priceDeviation := ofZ 1; confidenceRatio := ofZ 10 |}.

Definition observation (price conf : string) (publishTime : Z) : PriceInfo :=
  {| price := price; conf := conf; publishTime := publishTime |}.

(** A listener that knows one feed. *)
Definition listening (priceId : HexString) (info : PriceInfo) : PriceListener :=
  fun asked => if String.eqb asked priceId then Some info else None.

Definition silent : PriceListener := fun _ => None.

Definition pusherA : Pusher := {| priceConfigs := [feedA]; cooldownDuration := 10 |}.

(** The source has moved on by 70 seconds from what the target holds. *)
Definition sourceA : PriceListener := listening "aa" (observation "100" "1" 1000).
Definition targetA : PriceListener := listening "aa" (observation "100" "1" 930).

(** The process of [pusherA] after the events [es], from the start. *)
Definition after (unhandledRejectionsThrow : bool) (es : list event) : process :=
  match run NumberOfIntegerText addLeading0x_text pusherA unhandledRejectionsThrow
            initial es with
  | Some p => p
  | None => initial
  end.

(** One push, brought to the point where its transaction is sent. *)
Definition push_sent : list event :=
  [Turn targetA sourceA; UpdateDataFulfilled 0 ["0x01"]; UpdateFeeFulfilled 0 7].

Definition already_fresh : Error :=
  {| message := "execution reverted: no prices in the submitted batch have fresh prices, so this update will have no effect" |}.

Definition out_of_funds : Error :=
  {| message := "sender doesn't have enough funds to send tx. The upfront cost is: 7" |}.

(** A message with the text of the incorrect nonce and, behind it, the text
    of the missing funds. *)
Definition nonce_and_funds : Error :=
  {| message := "the tx doesn't have the correct nonce. sender doesn't have enough funds to send tx." |}.

Definition service_unavailable : Error :=
  {| message := "Request failed with status code 503" |}.

(** ** Invariants of the run *)

(** The pushes are told apart by the turn that made them: no turn number
    occurs twice, and none is a turn still to come. *)
Definition keys_fresh (p : process) : Prop :=
  NoDup (map fst (pushes p))
  /\ Forall (fun np : nat * push => (fst np < turns p)%nat) (pushes p).

(** The identifiers and the publish times a suspended call of [pushUpdates]
    holds in its closure. *)
Definition carries (priceIds : list HexString) (pubTimesToPush : list UnixTimestamp)
    (st : push) : Prop :=
  match st with
  | AwaitingUpdateData _ ids pubs => ids = priceIds /\ pubs = pubTimesToPush
  | AwaitingUpdateFee _ ids pubs => ids = priceIds /\ pubs = pubTimesToPush
  | Sent _ => True
  end.

Definition push_carries (n : nat) (priceIds : list HexString)
    (pubTimesToPush : list UnixTimestamp) (p : process) : Prop :=
  Forall (fun np : nat * push => fst np = n -> carries priceIds pubTimesToPush (snd np))
         (pushes p).

(** The publish time sent beside a feed, as the specification words it:
    the target's publish time plus one, and [1] without a target observation. *)
Definition spec_baseline (targetPriceListener : PriceListener)
    (priceConfig : PriceConfig) : UnixTimestamp :=
  match targetPriceListener (id priceConfig) with
  | Some targetObs => publishTime targetObs + 1
  | None => 1
  end.

(** A console line among the effects. *)
Definition is_console (e : effect) : bool :=
  match e with
  | Console _ => true
  | _ => false
  end.

(** The recovery from a failed step as the specification words it: the
    failure is reported, no rejection is left without a handler, and the
    process lives. *)
Definition spec_recovered (before after : process) : bool :=
  existsb is_console (skipn (length (output before)) (output after))
  && (length (unhandledRejections after) =? length (unhandledRejections before))%nat
  && match uncaught after with
     | None => true
     | Some _ => false
     end.

(** ** Measures of a run *)

(** [x < y] on numbers; false as soon as one side is NaN. *)
Definition number_ltb (x y : number) : bool := SFltb x y.

(** NaN, or a number with the minus sign ([-0] and [-Infinity] included). *)
Definition minus_or_NaN (x : number) : bool :=
  match x with
  | S754_nan => true
  | S754_zero s | S754_infinity s | S754_finite s _ _ => s
  end.

Definition is_fetch (e : effect) : bool :=
  match e with
  | GetPriceFeedsUpdateData _ => true
  | _ => false
  end.

Definition is_fee (e : effect) : bool :=
  match e with
  | GetUpdateFee _ => true
  | _ => false
  end.

Definition is_send (e : effect) : bool :=
  match e with
  | SendUpdatePriceFeedsIfNecessary _ _ _ _ => true
  | _ => false
  end.

Definition is_sleep (e : effect) : bool :=
  match e with
  | Sleep _ => true
  | _ => false
  end.

(** How often the process has asked for something so far. *)
Definition asked (kind : effect -> bool) (p : process) : nat :=
  length (filter kind (output p)).

Definition awaiting_data (st : push) : bool :=
  match st with
  | AwaitingUpdateData _ _ _ => true
  | _ => false
  end.

Definition awaiting_fee (st : push) : bool :=
  match st with
  | AwaitingUpdateFee _ _ _ => true
  | _ => false
  end.

(** How many calls of [pushUpdates] stand at a given [await]. *)
Definition count_pushes (stage : push -> bool) (ps : list (nat * push)) : nat :=
  length (filter (fun np => stage (snd np)) ps).

(** The arrays a transaction is sent with go together: they are not empty and
    there is one publish time for each identifier. *)
Definition parallel_arrays (e : effect) : Prop :=
  match e with
  | SendUpdatePriceFeedsIfNecessary _ priceIds pubTimesToPush _ =>
    priceIds <> [] /\ length priceIds = length pubTimesToPush
  | _ => True
  end.

Definition push_parallel (st : push) : Prop :=
  match st with
  | AwaitingUpdateData _ priceIds pubTimesToPush
  | AwaitingUpdateFee _ priceIds pubTimesToPush =>
    priceIds <> [] /\ length priceIds = length pubTimesToPush
  | Sent _ => True
  end.

Definition arrays_parallel (p : process) : Prop :=
  Forall (fun np : nat * push => push_parallel (snd np)) (pushes p)
  /\ Forall parallel_arrays (output p).

(** The requests of a run keep their order: a fee is only asked for update
    data that came, a transaction is only sent after its fee came, update
    data are only asked for in a turn, and every turn ends in one sleep. *)
Definition requests_ordered (p : process) : Prop :=
  (asked is_fee p + count_pushes awaiting_data (pushes p) <= asked is_fetch p)%nat
  /\ (asked is_send p + count_pushes awaiting_fee (pushes p) <= asked is_fee p)%nat
  /\ (asked is_fetch p <= turns p)%nat
  /\ asked is_sleep p = turns p.

(** An ended process names its cause: a rejection that nothing handled, under
    Node's [throw] mode, or an error with the text of the missing funds that
    the listener of ["error"] threw. *)
Definition end_explained (unhandledRejectionsThrow : bool) (p : process) : Prop :=
  forall err,
    uncaught p = Some err ->
    (unhandledRejectionsThrow = true /\ In err (unhandledRejections p))
    \/ (includes (message err) not_enough_funds = true
        /\ includes (message err) no_fresh_prices = false
        /\ includes (message err) incorrect_nonce = false).

(** A feed that is always pushed when its source is not older: every
    threshold is zero. *)
Definition feedZero : PriceConfig :=
  {| alias := "Z"; id := "00"; timeDifference := 0;
     priceDeviation := ofZ 0; confidenceRatio := ofZ 0 |}.

(** A feed that only the confidence ratio can push. *)
Definition feedConfidence : PriceConfig :=
  {| alias := "C"; id := "cc"; timeDifference := 3600;
     priceDeviation := ofZ 50; confidenceRatio := ofZ 0 |}.

Definition gateway_timeout : Error :=
  {| message := "Returned error: gateway timeout" |}.

(** The pusher of the variant with one set of thresholds, for two feeds. *)
Definition pusherOne : OneThreshold.Pusher :=
  {| OneThreshold.priceIds := ["aa"; "bb"];
     OneThreshold.timeDifferenceThreshold := 60;
     OneThreshold.priceDeviationThreshold := ofZ 1;
     OneThreshold.confidenceRatioThreshold := ofZ 10;
     OneThreshold.cooldownDuration := 10 |}.

(** * Properties *)

(** ** Numbers *)

(** Rounding does not look at the sign: the sign bit is carried through. *)
Lemma abs_binary_round_aux (sx : bool) (mx ex : Z) (lx : location) :
  SFabs (binary_round_aux prec emax sx mx ex lx)
  = binary_round_aux prec emax false mx ex lx.
Proof.
  unfold binary_round_aux.
  destruct (shr_fexp prec emax mx ex lx) as [mrs' e'].
  destruct (shr_fexp prec emax _ e' loc_Exact) as [mrs'' e''].
  destruct (shr_m mrs'') as [|m|m]; try reflexivity.
  destruct (e'' <=? emax - prec); reflexivity.
Qed.

(** [Math.abs(x * 100)] is [Math.abs(x) * 100]. *)
Lemma Math_abs_mul_100 (x : number) :
  Math_abs (mul x (ofZ 100)) = mul (Math_abs x) (ofZ 100).
Proof.
  unfold Math_abs, mul.
  change (ofZ 100) with (S754_finite false 7036874417766400 (-46)).
  destruct x as [s|s| |s m e]; cbn [SFmul SFabs]; try reflexivity.
  rewrite abs_binary_round_aux. reflexivity.
Qed.

(** A number that equals zero is one of the two zeros. *)
Lemma is_zero_inv (x : number) :
  is_zero x = true -> exists s, x = S754_zero s.
Proof.
  destruct x as [s|s| |s m e]; cbn; try discriminate.
  - intros _. exists s. reflexivity.
  - destruct s; discriminate.
  - destruct s; discriminate.
Qed.

(** Dividing by a zero gives no finite number, and neither does the product
    of the quotient with [100]. *)
Lemma div_by_zero_times_100 (x : number) (s : bool) :
  is_finite (mul (div x (S754_zero s)) (ofZ 100)) = false.
Proof.
  change (ofZ 100) with (S754_finite false 7036874417766400 (-46)).
  destruct x as [sx|sx| |sx m e]; reflexivity.
Qed.

(** Equal numbers are in the relation [>=]. *)
Lemma eqb_geb (x y : number) : eqb x y = true -> geb x y = true.
Proof.
  unfold eqb, geb, SFeqb, SFleb.
  destruct x as [sx|sx| |sx mx ex], y as [sy|sy| |sy my ey]; cbn;
    try discriminate; try reflexivity;
    try (destruct sx; discriminate); try (destruct sy; discriminate);
    try (destruct sx, sy; (discriminate || reflexivity)).
  destruct sx, sy; try discriminate.
  all: destruct (ex ?= ey) eqn:He; try discriminate;
    destruct (Pos.compare_cont Eq mx my) eqn:Hm; try discriminate;
    intros _; apply Z.compare_eq in He; apply Pos.compare_eq in Hm; subst;
    rewrite Z.compare_refl; fold (Pos.compare my my); rewrite Pos.compare_refl;
    reflexivity.
Qed.

Lemma is_finite_Math_abs (x : number) :
  is_finite (Math_abs x) = is_finite x.
Proof. destruct x; reflexivity. Qed.

Section Properties.

Variable Number : string -> number.
Variable addLeading0x : HexString -> HexString.
Variable this : Pusher.
Variable unhandledRejectionsThrow : bool.

(** ** [shouldUpdate] *)

Lemma shouldUpdate_both_present (priceConfig : PriceConfig) (s t : PriceInfo) :
  publishTime t <= publishTime s ->
  shouldUpdate Number priceConfig (Some s) (Some t)
  = (timeDifferenceOf s t >=? timeDifference priceConfig)
    || geb (priceDeviationPct Number s t) (priceDeviation priceConfig)
    || geb (confidenceRatioPct Number s) (confidenceRatio priceConfig).
Proof.
  intros Hnewer. unfold shouldUpdate.
  destruct (publishTime s <? publishTime t) eqn:Hlt; [|reflexivity].
  apply Z.ltb_lt in Hlt. lia.
Qed.

(** C1. With both observations present and the source not older than the
    target, [shouldUpdate] answers true exactly when the time difference has
    reached its threshold, or the price deviation has, or the confidence ratio
    has ([>=] each time).  So a signal equal to its threshold asks for an
    update, and a time difference one second short of its threshold, with
    neither other signal at its threshold, does not. *)
Theorem shouldUpdate_thresholds (priceConfig : PriceConfig) (s t : PriceInfo) :
  publishTime t <= publishTime s ->
  (shouldUpdate Number priceConfig (Some s) (Some t) = true <->
     timeDifference priceConfig <= timeDifferenceOf s t
     \/ geb (priceDeviationPct Number s t) (priceDeviation priceConfig) = true
     \/ geb (confidenceRatioPct Number s) (confidenceRatio priceConfig) = true)
  /\ (timeDifferenceOf s t = timeDifference priceConfig ->
      shouldUpdate Number priceConfig (Some s) (Some t) = true)
  /\ (eqb (priceDeviationPct Number s t) (priceDeviation priceConfig) = true ->
      shouldUpdate Number priceConfig (Some s) (Some t) = true)
  /\ (eqb (confidenceRatioPct Number s) (confidenceRatio priceConfig) = true ->
      shouldUpdate Number priceConfig (Some s) (Some t) = true)
  /\ (timeDifferenceOf s t = timeDifference priceConfig - 1 ->
      geb (priceDeviationPct Number s t) (priceDeviation priceConfig) = false ->
      geb (confidenceRatioPct Number s) (confidenceRatio priceConfig) = false ->
      shouldUpdate Number priceConfig (Some s) (Some t) = false).
Proof.
  intros Hnewer. rewrite (shouldUpdate_both_present priceConfig s t Hnewer).
  repeat split.
  - rewrite !orb_true_iff, Z.geb_le. tauto.
  - rewrite !orb_true_iff, Z.geb_le. tauto.
  - intros Heq. rewrite Heq.
    replace (timeDifference priceConfig >=? timeDifference priceConfig) with true.
    + reflexivity.
    + symmetry. apply Z.geb_le. lia.
  - intros Heq. rewrite (eqb_geb _ _ Heq), orb_true_r. reflexivity.
  - intros Heq. rewrite (eqb_geb _ _ Heq), orb_true_r. reflexivity.
  - intros Heq Hdev Hconf. rewrite Heq, Hdev, Hconf, !orb_false_r.
    destruct (timeDifference priceConfig - 1 >=? timeDifference priceConfig) eqn:Hge;
      [|reflexivity].
    apply Z.geb_le in Hge. lia.
Qed.

(** C2. The three guards, in their order: without a source observation the
    answer is false whatever the target and the thresholds; with a source
    observation and no target observation it is true; with both and the source
    published before the target it is false, whatever the prices are. *)
Theorem shouldUpdate_guards (priceConfig : PriceConfig) :
  (forall targetLatestPrice,
      shouldUpdate Number priceConfig None targetLatestPrice = false)
  /\ (forall s, shouldUpdate Number priceConfig (Some s) None = true)
  /\ (forall s t,
         publishTime s < publishTime t ->
         shouldUpdate Number priceConfig (Some s) (Some t) = false).
Proof.
  repeat split.
  - intros s t Hlt. unfold shouldUpdate.
    apply Z.ltb_lt in Hlt. rewrite Hlt. reflexivity.
Qed.

(** The confidence ratio is the one the specification words. *)
Lemma confidenceRatioPct_spec (s : PriceInfo) :
  confidenceRatioPct Number s = spec_confidenceRatioPct Number s.
Proof. apply Math_abs_mul_100. Qed.

(** The price deviation is the one the specification words as long as the
    target's price has no minus sign. *)
Lemma priceDeviationPct_spec (s t : PriceInfo) :
  Math_abs (Number (price t)) = Number (price t) ->
  priceDeviationPct Number s t = spec_priceDeviationPct Number s t.
Proof.
  intros Hpos. unfold priceDeviationPct, spec_priceDeviationPct.
  rewrite Hpos. reflexivity.
Qed.

(** The variant with one set of thresholds decides as [shouldUpdate] does on
    the feed's observations, so what holds of the one holds of the other. *)
Lemma OneThreshold_shouldUpdate (pusher : OneThreshold.Pusher)
    (target source : PriceListener) (priceId : HexString) :
  OneThreshold.shouldUpdate Number pusher target source priceId
  = shouldUpdate Number (OneThreshold.config_of pusher priceId)
                 (source priceId) (target priceId).
Proof. reflexivity. Qed.

(** C10. With both observations present and the source not older,
    [shouldUpdate] takes both quotients and compares them, whatever the
    divisors are: there is no test for a zero price.  The signals are finite
    numbers only off zero: when the deviation comes out finite the target's
    price was not zero, and when the confidence ratio comes out finite the
    source's price was not zero (with a zero price the signal is an infinity
    or NaN). *)
Theorem signals_finite_only_off_zero (s t : PriceInfo) :
  (is_finite (priceDeviationPct Number s t) = true ->
   is_zero (Number (price t)) = false)
  /\ (is_finite (confidenceRatioPct Number s) = true ->
      is_zero (Number (price s)) = false)
  /\ (forall priceConfig,
        publishTime t <= publishTime s ->
        shouldUpdate Number priceConfig (Some s) (Some t)
        = (timeDifferenceOf s t >=? timeDifference priceConfig)
          || geb (priceDeviationPct Number s t) (priceDeviation priceConfig)
          || geb (confidenceRatioPct Number s) (confidenceRatio priceConfig)).
Proof.
  split; [|split; [|intros priceConfig; apply shouldUpdate_both_present]].
  - intros Hfin. destruct (is_zero (Number (price t))) eqn:Hz; [|reflexivity].
    apply is_zero_inv in Hz. destruct Hz as [sz Hz].
    unfold priceDeviationPct in Hfin. rewrite Hz in Hfin.
    rewrite div_by_zero_times_100 in Hfin. discriminate.
  - intros Hfin. destruct (is_zero (Number (price s))) eqn:Hz; [|reflexivity].
    apply is_zero_inv in Hz. destruct Hz as [sz Hz].
    unfold confidenceRatioPct in Hfin. rewrite Hz in Hfin.
    rewrite is_finite_Math_abs, div_by_zero_times_100 in Hfin. discriminate.
Qed.

End Properties.

(** ** Lists of pushes *)

Lemma push_of_In (n : nat) (ps : list (nat * push)) (st : push) :
  push_of n ps = Some st -> In (n, st) ps.
Proof.
  induction ps as [|[m st'] rest IH]; cbn; [discriminate|].
  destruct (Nat.eqb_spec m n) as [-> | Hne].
  - intros [= ->]. left. reflexivity.
  - intros H. right. apply IH, H.
Qed.

Lemma push_of_absent (n : nat) (ps : list (nat * push)) :
  ~ In n (map fst ps) -> push_of n ps = None.
Proof.
  induction ps as [|[m st'] rest IH]; cbn; [reflexivity|].
  intros Hnot. destruct (Nat.eqb_spec m n) as [-> | Hne].
  - exfalso. apply Hnot. left. reflexivity.
  - apply IH. intros Hin. apply Hnot. right. exact Hin.
Qed.

Lemma keys_set_push (n : nat) (st : push) (ps : list (nat * push)) :
  map fst (set_push n st ps) = map fst ps.
Proof.
  induction ps as [|[m st'] rest IH]; cbn; [reflexivity|].
  destruct (m =? n)%nat; cbn; [reflexivity|]. rewrite IH. reflexivity.
Qed.

Lemma In_set_push (n : nat) (st : push) (ps : list (nat * push)) (np : nat * push) :
  In np (set_push n st ps) -> In np ps \/ np = (n, st).
Proof.
  induction ps as [|[m st'] rest IH]; cbn; [tauto|].
  destruct (Nat.eqb_spec m n) as [-> | Hne]; cbn.
  - intros [<- | Hin]; [right; reflexivity|left; right; exact Hin].
  - intros [<- | Hin]; [left; left; reflexivity|].
    destruct (IH Hin) as [H|H]; [left; right; exact H|right; exact H].
Qed.

Lemma In_drop_push (n : nat) (ps : list (nat * push)) (np : nat * push) :
  In np (drop_push n ps) -> In np ps.
Proof.
  induction ps as [|[m st'] rest IH]; cbn; [tauto|].
  destruct (m =? n)%nat; cbn.
  - intros Hin. right. exact Hin.
  - intros [<- | Hin]; [left; reflexivity|right; apply IH, Hin].
Qed.

Lemma In_keys_drop_push (n k : nat) (ps : list (nat * push)) :
  In k (map fst (drop_push n ps)) -> In k (map fst ps).
Proof.
  rewrite !in_map_iff. intros [np [Hk Hin]]. exists np.
  split; [exact Hk|apply (In_drop_push n), Hin].
Qed.

Lemma NoDup_keys_drop_push (n : nat) (ps : list (nat * push)) :
  NoDup (map fst ps) -> NoDup (map fst (drop_push n ps)).
Proof.
  induction ps as [|[m st'] rest IH]; cbn; [intros H; exact H|].
  intros Hnd. inversion Hnd as [|k ks Hnot Hrest]; subst.
  destruct (m =? n)%nat; cbn; [exact Hrest|].
  constructor; [|apply IH, Hrest].
  intros Hin. apply Hnot. apply (In_keys_drop_push n), Hin.
Qed.

Lemma push_of_drop_push (n : nat) (ps : list (nat * push)) :
  NoDup (map fst ps) -> push_of n (drop_push n ps) = None.
Proof.
  induction ps as [|[m st'] rest IH]; cbn; [reflexivity|].
  intros Hnd. inversion Hnd as [|k ks Hnot Hrest]; subst.
  destruct (Nat.eqb_spec m n) as [-> | Hne].
  - apply push_of_absent, Hnot.
  - cbn. destruct (Nat.eqb_spec m n) as [Heq|_]; [contradiction|].
    apply IH, Hrest.
Qed.

(** ** The run *)

Section RunProperties.

Variable Number : string -> number.
Variable addLeading0x : HexString -> HexString.
Variable this : Pusher.
Variable unhandledRejectionsThrow : bool.

Local Abbreviation step1 := (step Number addLeading0x this unhandledRejectionsThrow).
Local Abbreviation runs := (run Number addLeading0x this unhandledRejectionsThrow).
Local Abbreviation batch_of target source :=
  (selectBatch Number (priceConfigs this) target source).

(** A turn of the loop, spelled out. *)
Lemma step_Turn (p : process) (target source : PriceListener) :
  uncaught p = None ->
  step1 p (Turn target source)
  = Some {| turns := S (turns p);
            pushes := pushes p ++
                      match snd (pushUpdates addLeading0x (fst (batch_of target source))
                                             (snd (batch_of target source))) with
                      | Some st => [(turns p, st)]
                      | None => []
                      end;
            output := output p ++
                      fst (pushUpdates addLeading0x (fst (batch_of target source))
                                       (snd (batch_of target source)))
                      ++ [Sleep (cooldownDuration this * 1000)];
            unhandledRejections := unhandledRejections p;
            uncaught := None |}.
Proof.
  intros Hlive. unfold step. rewrite Hlive.
  destruct (batch_of target source) as [pricesToPush pubTimesToPush]. cbn [fst snd].
  destruct (pushUpdates addLeading0x pricesToPush pubTimesToPush) as [out started].
  reflexivity.
Qed.

Lemma step_live (p p' : process) (e : event) :
  step1 p e = Some p' -> uncaught p = None.
Proof.
  unfold step. destruct (uncaught p); [discriminate|reflexivity].
Qed.

(** What [pushUpdates] starts holds the publish times it was given, and the
    identifiers of the feeds it was given. *)
Lemma pushUpdates_started (pricesToPush : list PriceConfig)
    (pubTimesToPush : list UnixTimestamp) (st : push) :
  snd (pushUpdates addLeading0x pricesToPush pubTimesToPush) = Some st ->
  st = AwaitingUpdateData pricesToPush
         (map (fun priceConfig => addLeading0x (id priceConfig)) pricesToPush)
         pubTimesToPush
  /\ fst (pushUpdates addLeading0x pricesToPush pubTimesToPush)
     = [GetPriceFeedsUpdateData
          (map (fun priceConfig => addLeading0x (id priceConfig)) pricesToPush)].
Proof.
  unfold pushUpdates. destruct (length pricesToPush =? 0)%nat; cbn; [discriminate|].
  intros [= <-]. split; reflexivity.
Qed.

Lemma pushUpdates_not_started (pricesToPush : list PriceConfig)
    (pubTimesToPush : list UnixTimestamp) :
  snd (pushUpdates addLeading0x pricesToPush pubTimesToPush) = None ->
  pricesToPush = []
  /\ fst (pushUpdates addLeading0x pricesToPush pubTimesToPush) = [].
Proof.
  unfold pushUpdates. destruct pricesToPush as [|c rest]; cbn; [tauto|discriminate].
Qed.

(** How a step changes the turn count and the list of pushes. *)
Lemma step_pushes (p p' : process) (e : event) :
  step1 p e = Some p' ->
  (exists target source,
      e = Turn target source /\ turns p' = S (turns p)
      /\ (pushes p' = pushes p
          \/ exists st, pushes p' = pushes p ++ [(turns p, st)]
                        /\ carries (map (fun c => addLeading0x (id c))
                                        (fst (batch_of target source)))
                                   (snd (batch_of target source)) st))
  \/ (turns p' = turns p
      /\ exists n st st',
          push_of n (pushes p) = Some st
          /\ pushes p' = set_push n st' (pushes p)
          /\ forall ids pubs, carries ids pubs st -> carries ids pubs st')
  \/ (turns p' = turns p /\ exists n, pushes p' = drop_push n (pushes p)).
Proof.
  intros Hstep. pose proof (step_live _ _ _ Hstep) as Hlive.
  destruct e as [target source|n data|n err|n fee|n err|n hash|n err];
    [|unfold step in Hstep; rewrite Hlive in Hstep;
      destruct (push_of n (pushes p)) as [st|] eqn:Hpush; [|discriminate]..].
  - left. exists target, source. rewrite (step_Turn _ _ _ Hlive) in Hstep.
    injection Hstep as <-. cbn. split; [reflexivity|]. split; [reflexivity|].
    destruct (snd (pushUpdates addLeading0x _ _)) as [st|] eqn:Hstarted.
    + right. exists st. split; [reflexivity|].
      apply pushUpdates_started in Hstarted. destruct Hstarted as [-> _].
      cbn. split; reflexivity.
    + left. apply app_nil_r.
  - (* the update data arrive *)
    destruct st as [prices ids pubs| |]; try discriminate.
    cbn in Hstep. injection Hstep as <-. right. left. split; [reflexivity|].
    eexists n, _, _. split; [exact Hpush|]. split; [reflexivity|]. cbn. tauto.
  - (* the request for the update data fails *)
    destruct st as [prices ids pubs| |]; try discriminate.
    injection Hstep as <-. right. right. split; [reflexivity|].
    exists n. reflexivity.
  - (* the fee arrives *)
    destruct st as [|data ids pubs|]; try discriminate.
    cbn in Hstep. injection Hstep as <-. right. left. split; [reflexivity|].
    eexists n, _, _. split; [exact Hpush|]. split; [reflexivity|]. cbn. tauto.
  - (* the request for the fee fails *)
    destruct st as [|data ids pubs|]; try discriminate.
    injection Hstep as <-. right. right. split; [reflexivity|].
    exists n. reflexivity.
  - (* the transaction is accepted *)
    destruct st as [| |hashed]; try discriminate.
    injection Hstep as <-. right. left. split; [reflexivity|].
    eexists n, _, _. split; [exact Hpush|]. split; [reflexivity|]. cbn. tauto.
  - (* the transaction fails *)
    destruct st as [| |hashed]; try discriminate.
    destruct (onError err) as [out c]. injection Hstep as <-.
    right. right. split; [reflexivity|]. exists n. reflexivity.
Qed.

Lemma keys_fresh_initial : keys_fresh initial.
Proof. split; constructor. Qed.

Lemma step_keys_fresh (p p' : process) (e : event) :
  keys_fresh p -> step1 p e = Some p' -> keys_fresh p'.
Proof.
  intros [Hnd Hlt] Hstep. rewrite Forall_forall in Hlt.
  destruct (step_pushes _ _ _ Hstep)
    as [(target & source & _ & Hturns & Hpushes)
       |[(Hturns & n & st & st' & Hpush & Hpushes & _)
        |(Hturns & n & Hpushes)]];
    unfold keys_fresh; rewrite Hturns.
  - destruct Hpushes as [-> | (st & -> & _)].
    + split; [exact Hnd|]. rewrite Forall_forall. intros np Hin.
      specialize (Hlt np Hin). lia.
    + split.
      * rewrite map_app. cbn. apply NoDup_app; [exact Hnd|repeat constructor; tauto|].
        intros k Hin [<- | []]. apply in_map_iff in Hin.
        destruct Hin as (np & Hk & Hin). specialize (Hlt np Hin). lia.
      * rewrite Forall_forall. intros np Hin. apply in_app_or in Hin.
        destruct Hin as [Hin| [<- | []]]; [specialize (Hlt np Hin); lia|cbn; lia].
  - rewrite Hpushes. split.
    + rewrite keys_set_push. exact Hnd.
    + rewrite Forall_forall. intros np Hin. apply In_set_push in Hin.
      destruct Hin as [Hin | ->]; [apply Hlt, Hin|].
      apply push_of_In in Hpush. apply (Hlt _ Hpush).
  - rewrite Hpushes. split.
    + apply NoDup_keys_drop_push, Hnd.
    + rewrite Forall_forall. intros np Hin. apply Hlt. apply (In_drop_push n), Hin.
Qed.

Lemma runs_keys_fresh (es : list event) (p p' : process) :
  keys_fresh p -> runs p es = Some p' -> keys_fresh p'.
Proof.
  revert p. induction es as [|e rest IH]; cbn; intros p Hfresh Hrun.
  - injection Hrun as <-. exact Hfresh.
  - destruct (step1 p e) as [q|] eqn:Hstep; [|discriminate].
    apply (IH q); [apply (step_keys_fresh p q e); assumption|exact Hrun].
Qed.

(** A step never lowers the turn count. *)
Lemma step_turns (p p' : process) (e : event) :
  step1 p e = Some p' -> (turns p <= turns p')%nat.
Proof.
  intros Hstep.
  destruct (step_pushes _ _ _ Hstep)
    as [(target & source & _ & Hturns & _)|[(Hturns & _)|(Hturns & _)]]; lia.
Qed.

(** The closure of the push of a past turn keeps its identifiers and its
    publish times through every step. *)
Lemma step_push_carries (n : nat) (ids : list HexString) (pubs : list UnixTimestamp)
    (p p' : process) (e : event) :
  (n < turns p)%nat -> push_carries n ids pubs p -> step1 p e = Some p' ->
  push_carries n ids pubs p'.
Proof.
  unfold push_carries. intros Hpast Hcar Hstep. rewrite Forall_forall in Hcar.
  rewrite Forall_forall. intros np Hin Hkey.
  destruct (step_pushes _ _ _ Hstep)
    as [(target & source & _ & Hturns & Hpushes)
       |[(Hturns & m & st & st' & Hpush & Hpushes & Hkeeps)
        |(Hturns & m & Hpushes)]].
  - destruct Hpushes as [Heq|(st & Heq & _)]; rewrite Heq in Hin.
    + apply Hcar; assumption.
    + apply in_app_or in Hin. destruct Hin as [Hin| [<- | []]].
      * apply Hcar; assumption.
      * cbn in Hkey. lia.
  - rewrite Hpushes in Hin. apply In_set_push in Hin.
    destruct Hin as [Hin | ->]; [apply Hcar; assumption|].
    cbn in Hkey |- *. subst m. apply Hkeeps.
    apply push_of_In in Hpush. apply (Hcar _ Hpush). reflexivity.
  - rewrite Hpushes in Hin. apply In_drop_push in Hin. apply Hcar; assumption.
Qed.

Lemma runs_push_carries (n : nat) (ids : list HexString) (pubs : list UnixTimestamp)
    (es : list event) (p p' : process) :
  (n < turns p)%nat -> push_carries n ids pubs p -> runs p es = Some p' ->
  push_carries n ids pubs p'.
Proof.
  revert p. induction es as [|e rest IH]; cbn; intros p Hpast Hcar Hrun.
  - injection Hrun as <-. exact Hcar.
  - destruct (step1 p e) as [q|] eqn:Hstep; [|discriminate].
    apply (IH q); [|apply (step_push_carries n ids pubs p q e); assumption|exact Hrun].
    pose proof (step_turns _ _ _ Hstep). lia.
Qed.

(** The publish times of a batch are the baselines of its feeds. *)
Lemma selectBatch_baselines (configs : list PriceConfig) (target source : PriceListener) :
  snd (selectBatch Number configs target source)
  = map (spec_baseline target) (fst (selectBatch Number configs target source)).
Proof.
  induction configs as [|priceConfig rest IH]; cbn [selectBatch]; [reflexivity|].
  destruct (selectBatch Number rest target source) as [pricesToPush pubTimesToPush].
  cbn [fst snd] in IH.
  destruct (shouldUpdate Number priceConfig _ _); cbn [fst snd map]; [|exact IH].
  rewrite <- IH. apply (f_equal (fun z => z :: pubTimesToPush)).
  unfold spec_baseline, publishTime_or, getLatestPriceInfo.
  destruct (target (id priceConfig)) as [t|]; [|reflexivity].
  destruct (Z.eqb_spec (publishTime t) 0) as [-> | _]; reflexivity.
Qed.

(** The feeds of a batch are the configured feeds that [shouldUpdate]
    accepts, in the configured order. *)
Lemma selectBatch_feeds (configs : list PriceConfig) (target source : PriceListener) :
  fst (selectBatch Number configs target source)
  = filter (fun priceConfig =>
              shouldUpdate Number priceConfig (source (id priceConfig))
                           (target (id priceConfig)))
           configs.
Proof.
  induction configs as [|priceConfig rest IH]; cbn [selectBatch filter]; [reflexivity|].
  destruct (selectBatch Number rest target source) as [pricesToPush pubTimesToPush].
  cbn [fst] in IH. unfold getLatestPriceInfo.
  destruct (shouldUpdate Number priceConfig _ _); cbn [fst]; rewrite IH; reflexivity.
Qed.

(** A live process can always take a turn. *)
Lemma Turn_enabled (p : process) (target source : PriceListener) :
  uncaught p = None -> exists p', step1 p (Turn target source) = Some p'.
Proof.
  intros Hlive. rewrite (step_Turn _ _ _ Hlive). eexists. reflexivity.
Qed.

(** A process that an exception has ended takes no step. *)
Lemma ended_no_step (p : process) (thrown : Error) (e : event) :
  uncaught p = Some thrown -> step1 p e = None.
Proof. intros Hend. unfold step. rewrite Hend. reflexivity. Qed.

(** C7. The publish time pushed beside a selected feed is the target's
    publish time plus one, and [1] when the target listener has no observation
    of the feed.  It is computed in the turn that selects the feed, and those
    very numbers, in the order of the batch, are what the transaction of that
    turn's push is sent with, whatever happens in between. *)
Theorem baseline_publish_times (target source : PriceListener) :
  snd (batch_of target source)
  = map (spec_baseline target) (fst (batch_of target source))
  /\ forall es0 p p1 es p2 updateFee p3,
      runs initial es0 = Some p ->
      step1 p (Turn target source) = Some p1 ->
      runs p1 es = Some p2 ->
      step1 p2 (UpdateFeeFulfilled (turns p) updateFee) = Some p3 ->
      exists priceFeedUpdateData,
        output p3
        = output p2 ++
          [Console (LogUpdateFee updateFee);
           SendUpdatePriceFeedsIfNecessary priceFeedUpdateData
             (map (fun c => addLeading0x (id c)) (fst (batch_of target source)))
             (snd (batch_of target source)) updateFee].
Proof.
  split; [apply selectBatch_baselines|].
  intros es0 p p1 es p2 updateFee p3 Hreach Hturn Hrun Hfee.
  pose proof (runs_keys_fresh _ _ _ keys_fresh_initial Hreach) as [_ Hlt].
  rewrite Forall_forall in Hlt.
  set (ids := map (fun c => addLeading0x (id c)) (fst (batch_of target source))).
  set (pubs := snd (batch_of target source)).
  assert (Hcar1 : push_carries (turns p) ids pubs p1 /\ (turns p < turns p1)%nat).
  { destruct (step_pushes _ _ _ Hturn)
      as [(target' & source' & Heq & Hturns & Hpushes)
         |[(Hturns & n & st & st' & Hpush & _)|(Hturns & n & Hpushes)]].
    - injection Heq as <- <-. split; [|lia].
      unfold push_carries. rewrite Forall_forall. intros np Hin Hkey.
      destruct Hpushes as [Heq | (st & Heq & Hst)]; rewrite Heq in Hin.
      + specialize (Hlt np Hin). lia.
      + apply in_app_or in Hin. destruct Hin as [Hin | [<- | []]].
        * specialize (Hlt np Hin). lia.
        * exact Hst.
    - exfalso. pose proof (step_live _ _ _ Hturn) as Hlive.
      rewrite (step_Turn _ _ _ Hlive) in Hturn. injection Hturn as <-.
      cbn in Hturns. lia.
    - exfalso. pose proof (step_live _ _ _ Hturn) as Hlive.
      rewrite (step_Turn _ _ _ Hlive) in Hturn. injection Hturn as <-.
      cbn in Hturns. lia. }
  destruct Hcar1 as [Hcar1 Hpast].
  pose proof (runs_push_carries _ _ _ _ _ _ Hpast Hcar1 Hrun) as Hcar2.
  unfold push_carries in Hcar2. rewrite Forall_forall in Hcar2.
  pose proof (step_live _ _ _ Hfee) as Hlive.
  unfold step in Hfee. rewrite Hlive in Hfee.
  destruct (push_of (turns p) (pushes p2)) as [[|data ids' pubs'|]|] eqn:Hpush;
    try discriminate.
  apply push_of_In in Hpush. specialize (Hcar2 _ Hpush eq_refl).
  cbn in Hcar2. destruct Hcar2 as [-> ->].
  cbn in Hfee. injection Hfee as <-. exists data. reflexivity.
Qed.

(** C9. Given no feed, [pushUpdates] returns at once, asking nothing and
    starting nothing.  So a turn whose batch is empty only goes to sleep: the
    price service is not asked for update data, and no call of [pushUpdates]
    is left that could ask for the fee or send a transaction for that turn. *)
Theorem empty_batch_no_action :
  (forall pubTimesToPush, pushUpdates addLeading0x [] pubTimesToPush = ([], None))
  /\ forall es0 p target source,
      runs initial es0 = Some p ->
      uncaught p = None ->
      fst (batch_of target source) = [] ->
      exists p',
        step1 p (Turn target source) = Some p'
        /\ output p' = output p ++ [Sleep (cooldownDuration this * 1000)]
        /\ pushes p' = pushes p
        /\ push_of (turns p) (pushes p') = None
        /\ unhandledRejections p' = unhandledRejections p
        /\ uncaught p' = None.
Proof.
  split; [reflexivity|].
  intros es0 p target source Hreach Hlive Hempty.
  pose proof (runs_keys_fresh _ _ _ keys_fresh_initial Hreach) as [_ Hlt].
  rewrite Forall_forall in Hlt.
  rewrite (step_Turn _ _ _ Hlive), Hempty. cbn.
  eexists. split; [reflexivity|]. cbn. rewrite app_nil_r.
  repeat split. apply push_of_absent. intros Hin.
  apply in_map_iff in Hin. destruct Hin as (np & Hk & Hin).
  specialize (Hlt np Hin). lia.
Qed.

(** C5. An error whose message holds the text of the no-fresh-prices revert,
    or the text of the incorrect nonce, makes the listener write one line and
    return: nothing is thrown, no rejection is left, the process lives and the
    loop can take its next turn. *)
Theorem benign_errors_skipped (err : Error) :
  includes (message err) no_fresh_prices = true
  \/ includes (message err) incorrect_nonce = true ->
  snd (onError err) = Returns
  /\ forall p n hashed,
      uncaught p = None ->
      push_of n (pushes p) = Some (Sent hashed) ->
      exists p' line,
        step1 p (TransactionError n err) = Some p'
        /\ output p' = output p ++ [Console line]
        /\ (line = LogAlreadyUpdated \/ line = LogNonceIncorrect)
        /\ unhandledRejections p' = unhandledRejections p
        /\ uncaught p' = None
        /\ forall target source, exists p'', step1 p' (Turn target source) = Some p''.
Proof.
  intros Hbenign.
  assert (Hon : exists line,
             onError err = ([Console line], Returns)
             /\ (line = LogAlreadyUpdated \/ line = LogNonceIncorrect)).
  { unfold onError.
    destruct (includes (message err) no_fresh_prices) eqn:Hfresh.
    - exists LogAlreadyUpdated. split; [reflexivity|left; reflexivity].
    - destruct Hbenign as [Hb | Hb]; [discriminate|]. rewrite Hb.
      exists LogNonceIncorrect. split; [reflexivity|right; reflexivity]. }
  destruct Hon as (line & Hon & Hline). split; [rewrite Hon; reflexivity|].
  intros p n hashed Hlive Hpush. unfold step. rewrite Hlive, Hpush, Hon.
  eexists _, line. split; [reflexivity|]. split; [reflexivity|].
  split; [exact Hline|]. split; [reflexivity|]. split; [reflexivity|].
  intros target source. apply Turn_enabled. reflexivity.
Qed.

(** C4. An error whose message holds the text of the missing funds, and
    neither of the two texts tested before it, makes the listener write that
    the payer is out of balance and throw the error.  Nothing of the program
    catches what a listener throws: the process ends with that error and the
    loop takes no further turn.  An error without that text is never thrown. *)
Theorem insufficient_funds_fatal (err : Error) :
  includes (message err) no_fresh_prices = false ->
  includes (message err) incorrect_nonce = false ->
  includes (message err) not_enough_funds = true ->
  onError err = ([Console ErrorOutOfBalance], Throws err)
  /\ (forall p n hashed,
        uncaught p = None ->
        push_of n (pushes p) = Some (Sent hashed) ->
        exists p',
          step1 p (TransactionError n err) = Some p'
          /\ output p' = output p ++ [Console ErrorOutOfBalance]
          /\ uncaught p' = Some err
          /\ forall e, step1 p' e = None)
  /\ (forall other,
        includes (message other) not_enough_funds = false ->
        snd (onError other) = Returns).
Proof.
  intros Hfresh Hnonce Hfunds.
  assert (Hon : onError err = ([Console ErrorOutOfBalance], Throws err)).
  { unfold onError. rewrite Hfresh, Hnonce, Hfunds. reflexivity. }
  split; [exact Hon|]. split.
  - intros p n hashed Hlive Hpush. unfold step at 1. rewrite Hlive, Hpush, Hon.
    eexists. split; [reflexivity|]. split; [reflexivity|]. split; [reflexivity|].
    intros e. apply (ended_no_step _ err). reflexivity.
  - intros other Hnot. unfold onError. rewrite Hnot.
    destruct (includes (message other) no_fresh_prices); [reflexivity|].
    destruct (includes (message other) incorrect_nonce); reflexivity.
Qed.

(** C6. When the promise of [getPriceFeedsUpdateData] is rejected, the call
    of [pushUpdates] ends there: it writes nothing, asks for no fee and sends
    nothing, then or later.  The rejection is not caught: it leaves
    [pushUpdates] as the rejection of a promise that [start] dropped.  Under
    Node's [throw] mode that ends the process; under [warn] the loop takes its
    next turn. *)
Theorem update_data_rejection_unhandled (es0 : list event) (p : process) (n : nat)
    (err : Error) (pricesToPush : list PriceConfig) (priceIds : list HexString)
    (pubTimesToPush : list UnixTimestamp) :
  runs initial es0 = Some p ->
  uncaught p = None ->
  push_of n (pushes p) = Some (AwaitingUpdateData pricesToPush priceIds pubTimesToPush) ->
  exists p',
    step1 p (UpdateDataRejected n err) = Some p'
    /\ output p' = output p
    /\ push_of n (pushes p') = None
    /\ unhandledRejections p' = unhandledRejections p ++ [err]
    /\ uncaught p' = (if unhandledRejectionsThrow then Some err else None)
    /\ (unhandledRejectionsThrow = false ->
        forall target source, exists p'', step1 p' (Turn target source) = Some p'').
Proof.
  intros Hreach Hlive Hpush.
  pose proof (runs_keys_fresh _ _ _ keys_fresh_initial Hreach) as [Hnd _].
  unfold step at 1. rewrite Hlive, Hpush.
  eexists. split; [reflexivity|].
  split; [reflexivity|]. split; [apply push_of_drop_push, Hnd|].
  split; [reflexivity|]. split; [reflexivity|].
  intros Hwarn target source. apply Turn_enabled. cbn. rewrite Hwarn. reflexivity.
Qed.

(** C8. The loop of [start] suspends at the cooldown sleep only.  A turn
    selects the batch and runs [pushUpdates] up to its first [await] in one
    go, then sleeps; it neither waits for the pushes of earlier turns nor
    touches them: whatever pushes are under way, a live process takes the
    turn, and they are all still there after it. *)
Theorem turn_does_not_await_pushes (p : process) (target source : PriceListener) :
  uncaught p = None ->
  exists p',
    step1 p (Turn target source) = Some p'
    /\ turns p' = S (turns p)
    /\ uncaught p' = None
    /\ (exists out,
           output p' = output p ++ out ++ [Sleep (cooldownDuration this * 1000)]
           /\ (out = [] \/ exists priceIds, out = [GetPriceFeedsUpdateData priceIds]))
    /\ (pushes p' = pushes p
        \/ exists pricesToPush priceIds pubTimesToPush,
            pushes p'
            = pushes p ++
              [(turns p, AwaitingUpdateData pricesToPush priceIds pubTimesToPush)]).
Proof.
  intros Hlive. rewrite (step_Turn _ _ _ Hlive).
  eexists. split; [reflexivity|]. cbn.
  split; [reflexivity|]. split; [reflexivity|].
  destruct (snd (pushUpdates addLeading0x _ _)) as [st|] eqn:Hstarted.
  - apply pushUpdates_started in Hstarted. destruct Hstarted as [-> Hout].
    split.
    + eexists. split; [reflexivity|]. right. eexists. exact Hout.
    + right. eexists _, _, _. reflexivity.
  - apply pushUpdates_not_started in Hstarted. destruct Hstarted as [_ Hout].
    split.
    + eexists. split; [reflexivity|]. left. exact Hout.
    + left. apply app_nil_r.
Qed.

End RunProperties.

(** * The properties at work *)

(** ** [shouldUpdate] on the feed [feedA] *)

(** 50 seconds behind, same price, 1% of confidence: no update. *)
Example shouldUpdate_50_seconds :
  shouldUpdate NumberOfIntegerText feedA
    (Some (observation "100" "1" 1000)) (Some (observation "100" "1" 950)) = false.
Proof. vm_compute. reflexivity. Qed.

(** 70 seconds behind: update, with 931 as the publish time to push. *)
Example shouldUpdate_70_seconds :
  selectBatch NumberOfIntegerText [feedA] targetA sourceA = ([feedA], [931]).
Proof. vm_compute. reflexivity. Qed.

(** 110 against 100 deviates by 10, and not by the 9.09 that a division by
    the source's price gives. *)
Example priceDeviationPct_110_100 :
  priceDeviationPct NumberOfIntegerText
    (observation "110" "1" 1000) (observation "100" "1" 1000) = ofZ 10
  /\ mul (div (ofZ 10) (ofZ 110)) (ofZ 100) <> ofZ 10.
Proof. split; [vm_compute; reflexivity|vm_compute; discriminate]. Qed.

(** A confidence of 5 on a price of 100 is a ratio of 5. *)
Example confidenceRatioPct_5_100 :
  confidenceRatioPct NumberOfIntegerText (observation "100" "5" 1000) = ofZ 5.
Proof. vm_compute. reflexivity. Qed.

(** A zero price of the target with a move of the source gives an infinite
    deviation, two zero prices give NaN, and a zero price of the source gives
    an infinite confidence ratio. *)
Example signals_at_zero_price :
  priceDeviationPct NumberOfIntegerText
    (observation "100" "1" 1000) (observation "0" "1" 950) = S754_infinity false
  /\ priceDeviationPct NumberOfIntegerText
       (observation "0" "1" 1000) (observation "0" "1" 950) = NaN
  /\ confidenceRatioPct NumberOfIntegerText (observation "0" "1" 1000)
     = S754_infinity false.
Proof. repeat split; vm_compute; reflexivity. Qed.

(** C3. With a target price of -100 and a source price of 110 the deviation
    that [shouldUpdate] computes is -210, where the absolute value of the
    target's price in the divisor gives 210; the feed [feedA], which asks for
    an update from 1% of deviation on, is not updated. *)
Theorem priceDeviationPct_negative_target :
  priceDeviationPct NumberOfIntegerText
    (observation "110" "1" 1000) (observation "-100" "1" 1000) = ofZ (-210)
  /\ spec_priceDeviationPct NumberOfIntegerText
       (observation "110" "1" 1000) (observation "-100" "1" 1000) = ofZ 210
  /\ geb (ofZ 210) (priceDeviation feedA) = true
  /\ shouldUpdate NumberOfIntegerText feedA
       (Some (observation "110" "1" 1000)) (Some (observation "-100" "1" 1000))
     = false.
Proof. repeat split; vm_compute; reflexivity. Qed.

(** At 60 seconds, and at 1% of deviation, [feedA] is updated; at 59 seconds
    with the price unchanged it is not. *)
Lemma shouldUpdate_thresholds_witness :
  shouldUpdate NumberOfIntegerText feedA
    (Some (observation "100" "1" 1000)) (Some (observation "100" "1" 940)) = true
  /\ shouldUpdate NumberOfIntegerText feedA
       (Some (observation "101" "1" 1000)) (Some (observation "100" "1" 1000)) = true
  /\ shouldUpdate NumberOfIntegerText feedA
       (Some (observation "100" "1" 1000)) (Some (observation "100" "1" 941)) = false.
Proof.
  assert (H940 : publishTime (observation "100" "1" 940)
                 <= publishTime (observation "100" "1" 1000)) by (cbn; lia).
  assert (H1000 : publishTime (observation "100" "1" 1000)
                  <= publishTime (observation "101" "1" 1000)) by (cbn; lia).
  assert (H941 : publishTime (observation "100" "1" 941)
                 <= publishTime (observation "100" "1" 1000)) by (cbn; lia).
  split; [|split].
  - apply (proj1 (proj2 (shouldUpdate_thresholds NumberOfIntegerText feedA _ _ H940))).
    reflexivity.
  - apply (proj1 (proj2 (proj2
             (shouldUpdate_thresholds NumberOfIntegerText feedA _ _ H1000)))).
    vm_compute. reflexivity.
  - apply (proj2 (proj2 (proj2 (proj2
             (shouldUpdate_thresholds NumberOfIntegerText feedA _ _ H941))))).
    + reflexivity.
    + vm_compute. reflexivity.
    + vm_compute. reflexivity.
Defined.

(** The source doubles the target's price and is still left alone, being
    older. *)
Lemma shouldUpdate_guards_witness :
  geb (priceDeviationPct NumberOfIntegerText
         (observation "200" "1" 900) (observation "100" "1" 950))
      (priceDeviation feedA) = true
  /\ shouldUpdate NumberOfIntegerText feedA
       (Some (observation "200" "1" 900)) (Some (observation "100" "1" 950)) = false.
Proof.
  split.
  - vm_compute. reflexivity.
  - apply (shouldUpdate_guards NumberOfIntegerText feedA). cbn. lia.
Defined.

Lemma signals_finite_only_off_zero_witness :
  is_zero (NumberOfIntegerText "100") = false
  /\ is_zero (NumberOfIntegerText "110") = false.
Proof.
  split.
  - apply (signals_finite_only_off_zero NumberOfIntegerText
             (observation "110" "1" 1000) (observation "100" "1" 950)).
    vm_compute. reflexivity.
  - apply (signals_finite_only_off_zero NumberOfIntegerText
             (observation "110" "1" 1000) (observation "100" "1" 950)).
    vm_compute. reflexivity.
Defined.

(** ** The run of [pusherA] *)

(** The push of the first turn is sent with the publish time 931 that the
    turn computed, although the target listener has lost the feed by the
    second turn. *)
Lemma baseline_publish_times_witness :
  exists priceFeedUpdateData,
    output (after true [Turn targetA sourceA; Turn silent sourceA;
                        UpdateDataFulfilled 0 ["0x01"]; UpdateFeeFulfilled 0 7])
    = output (after true [Turn targetA sourceA; Turn silent sourceA;
                          UpdateDataFulfilled 0 ["0x01"]])
      ++ [Console (LogUpdateFee 7);
          SendUpdatePriceFeedsIfNecessary priceFeedUpdateData ["0xaa"] [931] 7].
Proof.
  apply (proj2 (baseline_publish_times NumberOfIntegerText addLeading0x_text pusherA
                  true targetA sourceA)
           [] initial (after true [Turn targetA sourceA])
           [Turn silent sourceA; UpdateDataFulfilled 0 ["0x01"]]).
  - reflexivity.
  - vm_compute. reflexivity.
  - vm_compute. reflexivity.
  - vm_compute. reflexivity.
Defined.

(** With no source observation the batch is empty, and the turn only sleeps. *)
Lemma empty_batch_no_action_witness :
  exists p',
    step NumberOfIntegerText addLeading0x_text pusherA true initial (Turn targetA silent)
    = Some p'
    /\ output p' = output initial ++ [Sleep (cooldownDuration pusherA * 1000)]
    /\ pushes p' = pushes initial
    /\ push_of (turns initial) (pushes p') = None
    /\ unhandledRejections p' = unhandledRejections initial
    /\ uncaught p' = None.
Proof.
  apply (proj2 (empty_batch_no_action NumberOfIntegerText addLeading0x_text pusherA true)
           [] initial targetA silent).
  - reflexivity.
  - reflexivity.
  - vm_compute. reflexivity.
Defined.

Lemma benign_errors_skipped_witness :
  snd (onError already_fresh) = Returns
  /\ exists p' line,
      step NumberOfIntegerText addLeading0x_text pusherA true (after true push_sent)
           (TransactionError 0 already_fresh) = Some p'
      /\ output p' = output (after true push_sent) ++ [Console line]
      /\ (line = LogAlreadyUpdated \/ line = LogNonceIncorrect)
      /\ unhandledRejections p' = unhandledRejections (after true push_sent)
      /\ uncaught p' = None
      /\ forall target source,
          exists p'',
            step NumberOfIntegerText addLeading0x_text pusherA true p'
                 (Turn target source) = Some p''.
Proof.
  assert (Hbenign : includes (message already_fresh) no_fresh_prices = true
                    \/ includes (message already_fresh) incorrect_nonce = true).
  { left. vm_compute. reflexivity. }
  split.
  - apply (benign_errors_skipped NumberOfIntegerText addLeading0x_text pusherA true
             already_fresh Hbenign).
  - apply (proj2 (benign_errors_skipped NumberOfIntegerText addLeading0x_text pusherA
                    true already_fresh Hbenign)
             (after true push_sent) 0%nat false).
    + vm_compute. reflexivity.
    + vm_compute. reflexivity.
Defined.

Lemma insufficient_funds_fatal_witness :
  onError out_of_funds = ([Console ErrorOutOfBalance], Throws out_of_funds)
  /\ exists p',
      step NumberOfIntegerText addLeading0x_text pusherA false (after false push_sent)
           (TransactionError 0 out_of_funds) = Some p'
      /\ output p' = output (after false push_sent) ++ [Console ErrorOutOfBalance]
      /\ uncaught p' = Some out_of_funds
      /\ forall e,
          step NumberOfIntegerText addLeading0x_text pusherA false p' e = None.
Proof.
  assert (Hfresh : includes (message out_of_funds) no_fresh_prices = false)
    by (vm_compute; reflexivity).
  assert (Hnonce : includes (message out_of_funds) incorrect_nonce = false)
    by (vm_compute; reflexivity).
  assert (Hfunds : includes (message out_of_funds) not_enough_funds = true)
    by (vm_compute; reflexivity).
  split.
  - apply (insufficient_funds_fatal NumberOfIntegerText addLeading0x_text pusherA false
             out_of_funds Hfresh Hnonce Hfunds).
  - apply (proj1 (proj2 (insufficient_funds_fatal NumberOfIntegerText addLeading0x_text
                           pusherA false out_of_funds Hfresh Hnonce Hfunds))
             (after false push_sent) 0%nat false).
    + vm_compute. reflexivity.
    + vm_compute. reflexivity.
Defined.

(** The text of the missing funds behind the text of the incorrect nonce: the
    listener returns. *)
Lemma funds_text_behind_nonce_text :
  includes (message nonce_and_funds) not_enough_funds = true
  /\ onError nonce_and_funds = ([Console LogNonceIncorrect], Returns)
  /\ exists p',
      step NumberOfIntegerText addLeading0x_text pusherA true (after true push_sent)
           (TransactionError 0 nonce_and_funds) = Some p'
      /\ uncaught p' = None.
Proof.
  split; [vm_compute; reflexivity|]. split; [vm_compute; reflexivity|].
  eexists. split; [vm_compute; reflexivity|]. reflexivity.
Qed.

Lemma update_data_rejection_unhandled_witness :
  exists p',
    step NumberOfIntegerText addLeading0x_text pusherA false
         (after false [Turn targetA sourceA]) (UpdateDataRejected 0 service_unavailable)
    = Some p'
    /\ output p' = output (after false [Turn targetA sourceA])
    /\ push_of 0 (pushes p') = None
    /\ unhandledRejections p'
       = unhandledRejections (after false [Turn targetA sourceA]) ++ [service_unavailable]
    /\ uncaught p' = None
    /\ (false = false ->
        forall target source,
          exists p'',
            step NumberOfIntegerText addLeading0x_text pusherA false p'
                 (Turn target source) = Some p'').
Proof.
  apply (update_data_rejection_unhandled NumberOfIntegerText addLeading0x_text pusherA
           false [Turn targetA sourceA] (after false [Turn targetA sourceA]) 0%nat
           service_unavailable [feedA] ["0xaa"] [931]).
  - vm_compute. reflexivity.
  - reflexivity.
  - vm_compute. reflexivity.
Defined.

(** The failed request for update data is not reported and not handled:
    the console gets nothing and the rejection stays without a handler; in
    Node's [throw] mode it ends the process, and no further turn is taken. *)
Lemma update_data_rejection_escapes :
  run NumberOfIntegerText addLeading0x_text pusherA false initial
      [Turn targetA sourceA; UpdateDataRejected 0 service_unavailable]
  = Some {| turns := 1;
            pushes := [];
            output := [GetPriceFeedsUpdateData ["0xaa"]; Sleep 10000];
            unhandledRejections := [service_unavailable];
            uncaught := None |}
  /\ spec_recovered (after false [Turn targetA sourceA])
                    (after false [Turn targetA sourceA;
                                  UpdateDataRejected 0 service_unavailable]) = false
  /\ run NumberOfIntegerText addLeading0x_text pusherA true initial
         [Turn targetA sourceA; UpdateDataRejected 0 service_unavailable]
     = Some {| turns := 1;
               pushes := [];
               output := [GetPriceFeedsUpdateData ["0xaa"]; Sleep 10000];
               unhandledRejections := [service_unavailable];
               uncaught := Some service_unavailable |}
  /\ run NumberOfIntegerText addLeading0x_text pusherA true initial
         [Turn targetA sourceA; UpdateDataRejected 0 service_unavailable;
          Turn targetA sourceA] = None.
Proof. repeat split; vm_compute; reflexivity. Qed.

(** A turn is taken with a push under way. *)
Lemma turn_does_not_await_pushes_witness :
  exists p',
    step NumberOfIntegerText addLeading0x_text pusherA true
         (after true [Turn targetA sourceA]) (Turn targetA sourceA) = Some p'
    /\ turns p' = S (turns (after true [Turn targetA sourceA]))
    /\ uncaught p' = None
    /\ (exists out,
           output p'
           = output (after true [Turn targetA sourceA]) ++ out
             ++ [Sleep (cooldownDuration pusherA * 1000)]
           /\ (out = [] \/ exists priceIds, out = [GetPriceFeedsUpdateData priceIds]))
    /\ (pushes p' = pushes (after true [Turn targetA sourceA])
        \/ exists pricesToPush priceIds pubTimesToPush,
            pushes p'
            = pushes (after true [Turn targetA sourceA])
              ++ [(turns (after true [Turn targetA sourceA]),
                   AwaitingUpdateData pricesToPush priceIds pubTimesToPush)]).
Proof.
  apply (turn_does_not_await_pushes NumberOfIntegerText addLeading0x_text pusherA true
           (after true [Turn targetA sourceA]) targetA sourceA).
  reflexivity.
Defined.

(** The second turn selects its batch while the push of the first turn still
    waits for its update data. *)
Lemma second_turn_overtakes_first_push :
  run NumberOfIntegerText addLeading0x_text pusherA true initial
      [Turn targetA sourceA; Turn targetA sourceA]
  = Some {| turns := 2;
            pushes := [(0%nat, AwaitingUpdateData [feedA] ["0xaa"] [931]);
                       (1%nat, AwaitingUpdateData [feedA] ["0xaa"] [931])];
            output := [GetPriceFeedsUpdateData ["0xaa"]; Sleep 10000;
                       GetPriceFeedsUpdateData ["0xaa"]; Sleep 10000];
            unhandledRejections := [];
            uncaught := None |}
  /\ spec_strictly_sequential NumberOfIntegerText addLeading0x_text pusherA true initial
       [Turn targetA sourceA; Turn targetA sourceA] = false.
Proof. split; vm_compute; reflexivity. Qed.

(** * Further properties *)

(** ** Signs and NaN *)

(** Rounding keeps the sign it is given. *)
Lemma binary_round_aux_sign (sx : bool) (mx ex : Z) (lx : location) :
  match binary_round_aux prec emax sx mx ex lx with
  | S754_nan => True
  | S754_zero s | S754_infinity s | S754_finite s _ _ => s = sx
  end.
Proof.
  unfold binary_round_aux.
  destruct (shr_fexp prec emax mx ex lx) as [mrs' e'].
  destruct (shr_fexp prec emax _ e' loc_Exact) as [mrs'' e''].
  destruct (shr_m mrs'') as [|m|m]; try reflexivity; try exact I.
  destruct (e'' <=? emax - prec); reflexivity.
Qed.

Lemma minus_or_NaN_round (mx ex : Z) (lx : location) :
  minus_or_NaN (binary_round_aux prec emax true mx ex lx) = true.
Proof.
  pose proof (binary_round_aux_sign true mx ex lx) as H.
  destruct (binary_round_aux prec emax true mx ex lx); cbn; auto.
Qed.

(** A number below zero is a negative finite number or [-Infinity]. *)
Lemma below_zero_inv (y : number) :
  number_ltb y (ofZ 0) = true ->
  y = S754_infinity true \/ exists m e, y = S754_finite true m e.
Proof.
  destruct y as [s|s| |s m e]; cbn; try discriminate; destruct s; try discriminate.
  - left. reflexivity.
  - right. exists m, e. reflexivity.
Qed.

(** A number above zero is a positive finite number or [Infinity]. *)
Lemma above_zero_inv (y : number) :
  number_ltb (ofZ 0) y = true ->
  y = S754_infinity false \/ exists m e, y = S754_finite false m e.
Proof.
  destruct y as [s|s| |s m e]; cbn; try discriminate; destruct s; try discriminate.
  - left. reflexivity.
  - right. exists m, e. reflexivity.
Qed.

(** An absolute value over a number below zero has the minus sign, or is NaN. *)
Lemma minus_or_NaN_div_abs (z y : number) :
  number_ltb y (ofZ 0) = true ->
  minus_or_NaN (div (Math_abs z) y) = true.
Proof.
  intros Hy. destruct (below_zero_inv y Hy) as [-> | (m & e & ->)].
  - destruct z as [s|s| |s mz ez]; reflexivity.
  - destruct z as [s|s| |s mz ez]; try reflexivity.
    unfold div, Math_abs, SFabs, SFdiv.
    destruct (SFdiv_core_binary prec emax (Z.pos mz) ez (Z.pos m) e) as [[q eq] l].
    apply minus_or_NaN_round.
Qed.

Lemma minus_or_NaN_mul_100 (q : number) :
  minus_or_NaN q = true -> minus_or_NaN (mul q (ofZ 100)) = true.
Proof.
  change (ofZ 100) with (S754_finite false 7036874417766400 (-46)).
  destruct q as [s|s| |s m e]; cbn [minus_or_NaN]; intros Hs; subst;
    try reflexivity.
  unfold mul, SFmul. apply minus_or_NaN_round.
Qed.

(** A number with the minus sign, or NaN, reaches no threshold above zero. *)
Lemma minus_or_NaN_below (x thr : number) :
  minus_or_NaN x = true -> number_ltb (ofZ 0) thr = true -> geb x thr = false.
Proof.
  intros Hx Hthr. destruct (above_zero_inv thr Hthr) as [-> | (m & e & ->)];
    destruct x as [s|s| |s mx ex]; cbn in Hx; subst; reflexivity.
Qed.

(** NaN reaches no threshold. *)
Lemma geb_NaN (thr : number) : geb NaN thr = false.
Proof. destruct thr as [s|s| |s m e]; reflexivity. Qed.

Lemma sub_NaN_r (x : number) : sub x NaN = NaN.
Proof. destruct x; reflexivity. Qed.

Lemma div_NaN_r (x : number) : div x NaN = NaN.
Proof. destruct x; reflexivity. Qed.

(** An absolute value is not below zero, so it reaches a zero threshold
    unless it is NaN. *)
Lemma geb_abs_zero (x thr : number) :
  is_zero thr = true -> Math_abs x <> NaN -> geb (Math_abs x) thr = true.
Proof.
  intros Hz Hnan. apply is_zero_inv in Hz. destruct Hz as [sz ->].
  destruct x as [s|s| |s m e]; try reflexivity.
  exfalso. apply Hnan. reflexivity.
Qed.

(** ** Texts *)

Lemma prefix_append (needle rest : string) :
  String.prefix needle (needle ++ rest)%string = true.
Proof.
  induction needle as [|a needle IH]; cbn.
  - destruct rest; reflexivity.
  - destruct (ascii_dec a a) as [_|Hne]; [exact IH|contradiction].
Qed.

(** A text includes what stands anywhere inside it. *)
Lemma includes_inside (before needle behind : string) :
  includes (before ++ needle ++ behind)%string needle = true.
Proof.
  induction before as [|a before IH]; cbn [append].
  - destruct (needle ++ behind)%string eqn:Heq; cbn [includes];
      rewrite <- Heq, prefix_append; reflexivity.
  - cbn [includes]. rewrite IH. apply orb_true_r.
Qed.

(** ** More on [shouldUpdate] and on the batch *)

Section EvaluatorProperties.

Variable Number : string -> number.

(** A verdict of true on two observations means the source is not older. *)
Lemma shouldUpdate_true_newer (priceConfig : PriceConfig) (s t : PriceInfo) :
  shouldUpdate Number priceConfig (Some s) (Some t) = true ->
  publishTime t <= publishTime s.
Proof.
  unfold shouldUpdate. destruct (publishTime s <? publishTime t) eqn:Hlt;
    [discriminate|]. intros _. apply Z.ltb_ge in Hlt. exact Hlt.
Qed.

(** X1. A time threshold of zero (or below) makes [shouldUpdate] accept every
    pair of observations whose source is not older than the target, with
    the same prices and the same publish time too: such a feed is pushed at
    every turn. *)
Theorem zero_time_threshold_always_updates (priceConfig : PriceConfig)
    (s t : PriceInfo) :
  timeDifference priceConfig <= 0 ->
  publishTime t <= publishTime s ->
  shouldUpdate Number priceConfig (Some s) (Some t) = true.
Proof.
  intros Hzero Hnewer. rewrite (shouldUpdate_both_present Number _ _ _ Hnewer).
  replace (timeDifferenceOf s t >=? timeDifference priceConfig) with true;
    [reflexivity|].
  symmetry. apply Z.geb_le. unfold timeDifferenceOf. lia.
Qed.

(** X2. Staleness only grows: when a pair of observations is due for an
    update, it stays due if the source is published later or the target
    earlier, the prices and the confidence being the same. *)
Theorem shouldUpdate_monotone_in_age (priceConfig : PriceConfig)
    (s t s' t' : PriceInfo) :
  shouldUpdate Number priceConfig (Some s) (Some t) = true ->
  price s' = price s -> conf s' = conf s -> price t' = price t ->
  publishTime s <= publishTime s' ->
  publishTime t' <= publishTime t ->
  shouldUpdate Number priceConfig (Some s') (Some t') = true.
Proof.
  intros Hdue Hps Hcs Hpt Hs Ht.
  pose proof (shouldUpdate_true_newer _ _ _ Hdue) as Hnewer.
  rewrite (shouldUpdate_both_present Number _ _ _ Hnewer) in Hdue.
  rewrite (shouldUpdate_both_present Number priceConfig s' t') by lia.
  unfold priceDeviationPct, confidenceRatioPct in *. rewrite Hps, Hcs, Hpt.
  apply orb_true_iff in Hdue. destruct Hdue as [Hdue | Hconf];
    [|rewrite Hconf; apply orb_true_r].
  apply orb_true_iff in Hdue. destruct Hdue as [Htime | Hdev];
    [|rewrite Hdev, orb_true_r; reflexivity].
  apply Z.geb_le in Htime.
  replace (timeDifferenceOf s' t' >=? timeDifference priceConfig) with true;
    [reflexivity|].
  symmetry. apply Z.geb_le. unfold timeDifferenceOf in *. lia.
Qed.

(** X3. A source price that [Number] reads as NaN (a text that is no number)
    silences both price signals: with both observations present and the
    source not older, only the time difference decides. *)
Theorem NaN_source_price_leaves_time (priceConfig : PriceConfig) (s t : PriceInfo) :
  Number (price s) = NaN ->
  publishTime t <= publishTime s ->
  shouldUpdate Number priceConfig (Some s) (Some t)
  = (timeDifferenceOf s t >=? timeDifference priceConfig).
Proof.
  intros Hnan Hnewer. rewrite (shouldUpdate_both_present Number _ _ _ Hnewer).
  unfold priceDeviationPct, confidenceRatioPct. rewrite Hnan, div_NaN_r.
  change (sub NaN (Number (price t))) with NaN.
  change (Math_abs NaN) with NaN.
  change (div NaN (Number (price t))) with NaN.
  change (mul NaN (ofZ 100)) with NaN.
  change (Math_abs NaN) with NaN.
  rewrite !geb_NaN, !orb_false_r. reflexivity.
Qed.

(** X4. With a target price below zero the price deviation comes out with a
    minus sign (or NaN) and reaches no threshold above zero, however far the
    source has moved; with a source not older, the update then hangs on the
    time difference and the confidence ratio alone. *)
Theorem negative_target_price_never_deviates (priceConfig : PriceConfig)
    (s t : PriceInfo) :
  number_ltb (Number (price t)) (ofZ 0) = true ->
  number_ltb (ofZ 0) (priceDeviation priceConfig) = true ->
  geb (priceDeviationPct Number s t) (priceDeviation priceConfig) = false
  /\ (publishTime t <= publishTime s ->
      shouldUpdate Number priceConfig (Some s) (Some t)
      = (timeDifferenceOf s t >=? timeDifference priceConfig)
        || geb (confidenceRatioPct Number s) (confidenceRatio priceConfig)).
Proof.
  intros Hneg Hthr.
  assert (Hdev : geb (priceDeviationPct Number s t) (priceDeviation priceConfig)
                 = false).
  { apply minus_or_NaN_below; [|exact Hthr].
    unfold priceDeviationPct. apply minus_or_NaN_mul_100.
    apply minus_or_NaN_div_abs, Hneg. }
  split; [exact Hdev|].
  intros Hnewer. rewrite (shouldUpdate_both_present Number _ _ _ Hnewer), Hdev.
  rewrite orb_false_r. reflexivity.
Qed.

(** X5. The confidence ratio is never below zero, so a zero threshold on it
    makes [shouldUpdate] accept every pair of observations whose source is
    not older, unless the ratio is NaN. *)
Theorem zero_confidence_threshold_always_updates (priceConfig : PriceConfig)
    (s t : PriceInfo) :
  number_ltb (confidenceRatioPct Number s) (ofZ 0) = false
  /\ (is_zero (confidenceRatio priceConfig) = true ->
      confidenceRatioPct Number s <> NaN ->
      publishTime t <= publishTime s ->
      shouldUpdate Number priceConfig (Some s) (Some t) = true).
Proof.
  split.
  - unfold confidenceRatioPct.
    destruct (mul (div (Number (conf s)) (Number (price s))) (ofZ 100))
      as [sg|sg| |sg m e]; reflexivity.
  - intros Hzero Hnan Hnewer.
    rewrite (shouldUpdate_both_present Number _ _ _ Hnewer).
    unfold confidenceRatioPct in *.
    rewrite (geb_abs_zero _ _ Hzero Hnan). apply orb_true_r.
Qed.

(** X6. The batch of a turn holds the configured feeds that [shouldUpdate]
    accepts, in the configured order, with one publish time for each.  So a
    feed is in the batch exactly when it is configured and accepted; a feed
    without a source observation is never in it, and a feed with a source
    observation that the target does not know is always in it. *)
Theorem selectBatch_selects (configs : list PriceConfig)
    (target source : PriceListener) :
  fst (selectBatch Number configs target source)
  = filter (fun priceConfig =>
              shouldUpdate Number priceConfig (source (id priceConfig))
                           (target (id priceConfig)))
           configs
  /\ length (snd (selectBatch Number configs target source))
     = length (fst (selectBatch Number configs target source))
  /\ (forall priceConfig,
         In priceConfig (fst (selectBatch Number configs target source))
         <-> In priceConfig configs
             /\ shouldUpdate Number priceConfig (source (id priceConfig))
                             (target (id priceConfig)) = true)
  /\ (forall priceConfig,
         source (id priceConfig) = None ->
         ~ In priceConfig (fst (selectBatch Number configs target source)))
  /\ (forall priceConfig,
         In priceConfig configs ->
         source (id priceConfig) <> None ->
         target (id priceConfig) = None ->
         In priceConfig (fst (selectBatch Number configs target source))).
Proof.
  pose proof (selectBatch_feeds Number configs target source) as Hfeeds.
  split; [exact Hfeeds|]. split.
  - rewrite (selectBatch_baselines Number). apply length_map.
  - rewrite Hfeeds. split; [|split].
    + intros priceConfig. apply filter_In.
    + intros priceConfig Hnone Hin. apply filter_In in Hin.
      destruct Hin as [_ Hdue]. rewrite Hnone in Hdue. discriminate.
    + intros priceConfig Hin Hsome Hnone. apply filter_In. split; [exact Hin|].
      rewrite Hnone. destruct (source (id priceConfig)) as [s|];
        [reflexivity|contradiction].
Qed.

(** X7. When no identifier is configured twice, no identifier is in a batch
    twice. *)
Theorem selectBatch_NoDup (configs : list PriceConfig)
    (target source : PriceListener) :
  NoDup (map id configs) ->
  NoDup (map id (fst (selectBatch Number configs target source))).
Proof.
  rewrite (selectBatch_feeds Number).
  induction configs as [|priceConfig rest IH]; cbn [map filter];
    [intros H; exact H|].
  intros Hnd. inversion Hnd as [|k ks Hnot Hrest]; subst.
  destruct (shouldUpdate Number priceConfig _ _); [|apply IH, Hrest].
  cbn [map]. constructor; [|apply IH, Hrest].
  intros Hin. apply Hnot. apply in_map_iff in Hin.
  destruct Hin as (c & Hid & Hin). apply filter_In in Hin.
  apply in_map_iff. exists c. split; [exact Hid|apply Hin].
Qed.

(** X8. The variant with one set of thresholds selects the identifiers of
    the feeds that the batch of [start] selects, when each identifier is
    configured with the pusher's thresholds. *)
Theorem OneThreshold_pricesToPush (pusher : OneThreshold.Pusher)
    (target source : PriceListener) :
  OneThreshold.pricesToPush Number pusher target source
  = map id (fst (selectBatch Number
                   (map (OneThreshold.config_of pusher)
                        (OneThreshold.priceIds pusher))
                   target source)).
Proof.
  rewrite (selectBatch_feeds Number). unfold OneThreshold.pricesToPush.
  induction (OneThreshold.priceIds pusher) as [|priceId rest IH];
    cbn [map filter]; [reflexivity|].
  change (id (OneThreshold.config_of pusher priceId)) with priceId.
  change (shouldUpdate Number (OneThreshold.config_of pusher priceId)
                       (source priceId) (target priceId))
    with (OneThreshold.shouldUpdate Number pusher target source priceId).
  destruct (OneThreshold.shouldUpdate Number pusher target source priceId);
    cbn [map]; rewrite IH; reflexivity.
Qed.

End EvaluatorProperties.

(** ** More on the listener of ["error"] *)

(** X9. The text of the no-fresh-prices revert is found wherever it stands
    in the message, and it is tested first: whatever is before it and behind
    it, the text of the missing funds included, the listener writes that the
    target is already updated and returns.  The text of the incorrect nonce
    is found likewise, when the first text is not in the message. *)
Theorem onError_finds_text_inside (before behind : string) :
  onError {| message := (before ++ no_fresh_prices ++ behind)%string |}
  = ([Console LogAlreadyUpdated], Returns)
  /\ (includes (before ++ incorrect_nonce ++ behind)%string no_fresh_prices = false ->
      onError {| message := (before ++ incorrect_nonce ++ behind)%string |}
      = ([Console LogNonceIncorrect], Returns)).
Proof.
  split.
  - unfold onError. cbn [message]. rewrite includes_inside. reflexivity.
  - intros Hfresh. unfold onError. cbn [message].
    rewrite Hfresh, includes_inside. reflexivity.
Qed.

(** ** Invariants of the run *)

Lemma count_pushes_app (stage : push -> bool) (ps qs : list (nat * push)) :
  count_pushes stage (ps ++ qs) = (count_pushes stage ps + count_pushes stage qs)%nat.
Proof. unfold count_pushes. rewrite filter_app, length_app. reflexivity. Qed.

(** Replacing the state of the push of turn [n] moves it from one stage to
    another. *)
Lemma count_pushes_set_push (stage : push -> bool) (n : nat) (st st' : push)
    (ps : list (nat * push)) :
  push_of n ps = Some st ->
  (count_pushes stage (set_push n st' ps) + Nat.b2n (stage st)
   = count_pushes stage ps + Nat.b2n (stage st'))%nat.
Proof.
  unfold count_pushes.
  induction ps as [|[m x] rest IH]; cbn [push_of set_push]; [discriminate|].
  destruct (m =? n)%nat.
  - intros [= ->]. cbn [filter snd].
    destruct (stage st), (stage st'); cbn; lia.
  - intros Hpush. specialize (IH Hpush). cbn [filter snd].
    destruct (stage x); cbn [length]; lia.
Qed.

Lemma count_pushes_drop_push (stage : push -> bool) (n : nat) (st : push)
    (ps : list (nat * push)) :
  push_of n ps = Some st ->
  (count_pushes stage (drop_push n ps) + Nat.b2n (stage st)
   = count_pushes stage ps)%nat.
Proof.
  unfold count_pushes.
  induction ps as [|[m x] rest IH]; cbn [push_of drop_push]; [discriminate|].
  destruct (m =? n)%nat.
  - intros [= ->]. cbn [filter snd]. destruct (stage st); cbn; lia.
  - intros Hpush. specialize (IH Hpush). cbn [filter snd].
    destruct (stage x); cbn [length]; lia.
Qed.

(** When the listener of ["error"] throws, it throws the error it was given,
    whose message holds the text of the missing funds and neither of the two
    texts tested before. *)
Lemma onError_throws (err thrown : Error) :
  snd (onError err) = Throws thrown ->
  thrown = err
  /\ includes (message err) not_enough_funds = true
  /\ includes (message err) no_fresh_prices = false
  /\ includes (message err) incorrect_nonce = false.
Proof.
  unfold onError.
  destruct (includes (message err) no_fresh_prices); [discriminate|].
  destruct (includes (message err) incorrect_nonce); [discriminate|].
  destruct (includes (message err) not_enough_funds); [|discriminate].
  cbn. intros [= <-]. repeat split.
Qed.

Section RunInvariants.

Variable Number : string -> number.
Variable addLeading0x : HexString -> HexString.
Variable this : Pusher.
Variable unhandledRejectionsThrow : bool.

Local Abbreviation step2 := (step Number addLeading0x this unhandledRejectionsThrow).
Local Abbreviation runs2 := (run Number addLeading0x this unhandledRejectionsThrow).
Local Abbreviation batch2 target source :=
  (selectBatch Number (priceConfigs this) target source).

(** Each step, spelled out. *)
Lemma step_inv (p p' : process) (e : event) :
  step2 p e = Some p' ->
  match e with
  | Turn target source =>
    p' = {| turns := S (turns p);
            pushes := pushes p ++
                      match snd (pushUpdates addLeading0x (fst (batch2 target source))
                                             (snd (batch2 target source))) with
                      | Some st => [(turns p, st)]
                      | None => []
                      end;
            output := output p ++
                      fst (pushUpdates addLeading0x (fst (batch2 target source))
                                       (snd (batch2 target source)))
                      ++ [Sleep (cooldownDuration this * 1000)];
            unhandledRejections := unhandledRejections p;
            uncaught := None |}
  | UpdateDataFulfilled n priceFeedUpdateData =>
    exists pricesToPush priceIds pubTimesToPush,
      push_of n (pushes p)
      = Some (AwaitingUpdateData pricesToPush priceIds pubTimesToPush)
      /\ p' = {| turns := turns p;
                 pushes := set_push n (AwaitingUpdateFee priceFeedUpdateData priceIds
                                                         pubTimesToPush) (pushes p);
                 output := output p ++
                           fst (pushUpdates_withUpdateData pricesToPush priceIds
                                  pubTimesToPush priceFeedUpdateData);
                 unhandledRejections := unhandledRejections p;
                 uncaught := None |}
  | UpdateDataRejected n err =>
    exists pricesToPush priceIds pubTimesToPush,
      push_of n (pushes p)
      = Some (AwaitingUpdateData pricesToPush priceIds pubTimesToPush)
      /\ p' = pushUpdates_rejected unhandledRejectionsThrow p n err
  | UpdateFeeFulfilled n updateFee =>
    exists priceFeedUpdateData priceIds pubTimesToPush,
      push_of n (pushes p)
      = Some (AwaitingUpdateFee priceFeedUpdateData priceIds pubTimesToPush)
      /\ p' = {| turns := turns p;
                 pushes := set_push n (Sent false) (pushes p);
                 output := output p ++
                           [Console (LogUpdateFee updateFee);
                            SendUpdatePriceFeedsIfNecessary priceFeedUpdateData
                              priceIds pubTimesToPush updateFee];
                 unhandledRejections := unhandledRejections p;
                 uncaught := None |}
  | UpdateFeeRejected n err =>
    exists priceFeedUpdateData priceIds pubTimesToPush,
      push_of n (pushes p)
      = Some (AwaitingUpdateFee priceFeedUpdateData priceIds pubTimesToPush)
      /\ p' = pushUpdates_rejected unhandledRejectionsThrow p n err
  | TransactionHash n hash =>
    exists hashed,
      push_of n (pushes p) = Some (Sent hashed)
      /\ p' = {| turns := turns p;
                 pushes := set_push n (Sent true) (pushes p);
                 output := output p ++ [Console (LogSuccessful hash)];
                 unhandledRejections := unhandledRejections p;
                 uncaught := None |}
  | TransactionError n err =>
    exists hashed,
      push_of n (pushes p) = Some (Sent hashed)
      /\ p' = {| turns := turns p;
                 pushes := drop_push n (pushes p);
                 output := output p ++ fst (onError err);
                 unhandledRejections := unhandledRejections p;
                 uncaught := match snd (onError err) with
                             | Returns => None
                             | Throws thrown => Some thrown
                             end |}
  end.
Proof.
  intros Hstep.
  pose proof (step_live Number addLeading0x this unhandledRejectionsThrow _ _ _ Hstep)
    as Hlive.
  destruct e as [target source|n data|n err|n fee|n err|n hash|n err];
    [|unfold step in Hstep; rewrite Hlive in Hstep;
      destruct (push_of n (pushes p)) as [st|] eqn:Hpush; [|discriminate]..].
  - rewrite (step_Turn Number addLeading0x this unhandledRejectionsThrow _ _ _ Hlive)
      in Hstep.
    injection Hstep as <-. reflexivity.
  - destruct st as [prices ids pubs| |]; try discriminate.
    cbn in Hstep. injection Hstep as <-. exists prices, ids, pubs.
    split; reflexivity.
  - destruct st as [prices ids pubs| |]; try discriminate.
    injection Hstep as <-. exists prices, ids, pubs. split; reflexivity.
  - destruct st as [|data ids pubs|]; try discriminate.
    cbn in Hstep. injection Hstep as <-. exists data, ids, pubs.
    split; reflexivity.
  - destruct st as [|data ids pubs|]; try discriminate.
    injection Hstep as <-. exists data, ids, pubs. split; reflexivity.
  - destruct st as [| |hashed]; try discriminate.
    injection Hstep as <-. exists hashed. split; reflexivity.
  - destruct st as [| |hashed]; try discriminate.
    destruct (onError err) as [out c]. injection Hstep as <-.
    exists hashed. split; reflexivity.
Qed.

(** An invariant of the steps holds along a run. *)
Lemma runs_invariant (Inv : process -> Prop) :
  (forall p p' e, Inv p -> step2 p e = Some p' -> Inv p') ->
  forall es p p', Inv p -> runs2 p es = Some p' -> Inv p'.
Proof.
  intros Hpres. induction es as [|e rest IH]; cbn; intros p p' Hinv Hrun.
  - injection Hrun as <-. exact Hinv.
  - destruct (step2 p e) as [q|] eqn:Hstep; [|discriminate].
    apply (IH q); [apply (Hpres p q e); assumption|exact Hrun].
Qed.

(** What a turn starts, if it starts a push. *)
Lemma turn_started (target source : PriceListener) (st : push) :
  snd (pushUpdates addLeading0x (fst (batch2 target source))
                   (snd (batch2 target source))) = Some st ->
  push_parallel st /\ awaiting_data st = true /\ awaiting_fee st = false
  /\ exists priceIds,
      fst (pushUpdates addLeading0x (fst (batch2 target source))
                       (snd (batch2 target source)))
      = [GetPriceFeedsUpdateData priceIds].
Proof.
  intros Hstarted.
  pose proof (selectBatch_baselines Number (priceConfigs this) target source) as Hpubs.
  destruct (pushUpdates_started addLeading0x _ _ _ Hstarted) as [-> Hout].
  split; [|split; [reflexivity|split; [reflexivity|eexists; exact Hout]]].
  cbn [push_parallel]. rewrite Hpubs, !length_map. split; [|reflexivity].
  unfold pushUpdates in Hstarted.
  destruct (fst (batch2 target source)) as [|c rest]; cbn in *; discriminate.
Qed.

Lemma step_arrays_parallel (p p' : process) (e : event) :
  arrays_parallel p -> step2 p e = Some p' -> arrays_parallel p'.
Proof.
  intros [Hpushes Hout] Hstep. apply step_inv in Hstep.
  rewrite Forall_forall in Hpushes.
  assert (Hat : forall n st, push_of n (pushes p) = Some st -> push_parallel st).
  { intros n st Hpush. apply push_of_In in Hpush. apply (Hpushes _ Hpush). }
  assert (Hset : forall n st,
             push_parallel st ->
             Forall (fun np : nat * push => push_parallel (snd np))
                    (set_push n st (pushes p))).
  { intros n st Hst. rewrite Forall_forall. intros np Hin.
    apply In_set_push in Hin. destruct Hin as [Hin | ->];
      [apply Hpushes, Hin|exact Hst]. }
  assert (Hdrop : forall n,
             Forall (fun np : nat * push => push_parallel (snd np))
                    (drop_push n (pushes p))).
  { intros n. rewrite Forall_forall. intros np Hin.
    apply Hpushes. apply (In_drop_push n), Hin. }
  destruct e as [target source|n data|n err|n fee|n err|n hash|n err].
  - subst p'. split; cbn [pushes output].
    + apply Forall_app. split; [rewrite Forall_forall; exact Hpushes|].
      destruct (snd (pushUpdates addLeading0x _ _)) as [st|] eqn:Hstarted;
        [|constructor].
      constructor; [|constructor]. apply (turn_started _ _ _ Hstarted).
    + apply Forall_app. split; [exact Hout|]. apply Forall_app. split.
      * destruct (snd (pushUpdates addLeading0x (fst (batch2 target source))
                                     (snd (batch2 target source))))
          as [st|] eqn:Hstarted.
        -- destruct (turn_started _ _ _ Hstarted) as (_ & _ & _ & ids & ->).
           repeat constructor.
        -- apply pushUpdates_not_started in Hstarted.
           destruct Hstarted as [_ ->]. constructor.
      * repeat constructor.
  - destruct Hstep as (prices & ids & pubs & Hpush & ->).
    split; cbn [pushes output].
    + apply Hset. apply (Hat _ _ Hpush).
    + apply Forall_app. split; [exact Hout|]. repeat constructor.
  - destruct Hstep as (prices & ids & pubs & Hpush & ->).
    split; cbn [pushes output pushUpdates_rejected]; [apply Hdrop|exact Hout].
  - destruct Hstep as (data & ids & pubs & Hpush & ->).
    split; cbn [pushes output].
    + apply Hset. exact I.
    + apply Forall_app. split; [exact Hout|].
      constructor; [exact I|]. constructor; [|constructor].
      apply (Hat _ _ Hpush).
  - destruct Hstep as (data & ids & pubs & Hpush & ->).
    split; cbn [pushes output pushUpdates_rejected]; [apply Hdrop|exact Hout].
  - destruct Hstep as (hashed & Hpush & ->).
    split; cbn [pushes output].
    + apply Hset. exact I.
    + apply Forall_app. split; [exact Hout|]. repeat constructor.
  - destruct Hstep as (hashed & Hpush & ->).
    split; cbn [pushes output]; [apply Hdrop|].
    apply Forall_app. split; [exact Hout|].
    unfold onError.
    destruct (includes (message err) no_fresh_prices); [repeat constructor|].
    destruct (includes (message err) incorrect_nonce); [repeat constructor|].
    destruct (includes (message err) not_enough_funds); repeat constructor.
Qed.

(** X10. Every transaction the process sends carries arrays that go
    together: at least one feed identifier, and as many publish times as
    identifiers. *)
Theorem sent_arrays_parallel (es : list event) (p : process)
    (priceFeedUpdateData priceIds : list HexString)
    (pubTimesToPush : list UnixTimestamp) (value : Z) :
  runs2 initial es = Some p ->
  In (SendUpdatePriceFeedsIfNecessary priceFeedUpdateData priceIds pubTimesToPush value)
     (output p) ->
  priceIds <> [] /\ length priceIds = length pubTimesToPush.
Proof.
  intros Hrun Hin.
  assert (Hinv : arrays_parallel p).
  { apply (runs_invariant arrays_parallel step_arrays_parallel es initial p);
      [|exact Hrun].
    split; constructor. }
  destruct Hinv as [_ Hout]. rewrite Forall_forall in Hout.
  apply (Hout _ Hin).
Qed.

Lemma step_requests_ordered (p p' : process) (e : event) :
  requests_ordered p -> step2 p e = Some p' -> requests_ordered p'.
Proof.
  unfold requests_ordered, asked.
  intros (Hfee & Hsend & Hfetch & Hsleep) Hstep. apply step_inv in Hstep.
  destruct e as [target source|n data|n err|n fee|n err|n hash|n err].
  - subst p'. cbn [pushes output turns].
    rewrite !filter_app, !length_app, !count_pushes_app.
    destruct (snd (pushUpdates addLeading0x (fst (batch2 target source))
                               (snd (batch2 target source))))
      as [st|] eqn:Hstarted.
    + destruct (turn_started _ _ _ Hstarted) as (_ & Hd & Hf & ids & ->).
      unfold count_pushes at 2 4. cbn [filter snd]. rewrite Hd, Hf.
      cbn. lia.
    + apply pushUpdates_not_started in Hstarted. destruct Hstarted as [_ ->].
      cbn. lia.
  - destruct Hstep as (prices & ids & pubs & Hpush & ->).
    cbn [pushes output turns]. rewrite !filter_app, !length_app.
    pose proof (count_pushes_set_push awaiting_data n _
                  (AwaitingUpdateFee data ids pubs) _ Hpush) as Hd.
    pose proof (count_pushes_set_push awaiting_fee n _
                  (AwaitingUpdateFee data ids pubs) _ Hpush) as Hf.
    cbn in Hd, Hf |- *. lia.
  - destruct Hstep as (prices & ids & pubs & Hpush & ->).
    cbn [pushes output turns pushUpdates_rejected].
    pose proof (count_pushes_drop_push awaiting_data n _ _ Hpush) as Hd.
    pose proof (count_pushes_drop_push awaiting_fee n _ _ Hpush) as Hf.
    cbn in Hd, Hf |- *. lia.
  - destruct Hstep as (data & ids & pubs & Hpush & ->).
    cbn [pushes output turns]. rewrite !filter_app, !length_app.
    pose proof (count_pushes_set_push awaiting_data n _ (Sent false) _ Hpush) as Hd.
    pose proof (count_pushes_set_push awaiting_fee n _ (Sent false) _ Hpush) as Hf.
    cbn in Hd, Hf |- *. lia.
  - destruct Hstep as (data & ids & pubs & Hpush & ->).
    cbn [pushes output turns pushUpdates_rejected].
    pose proof (count_pushes_drop_push awaiting_data n _ _ Hpush) as Hd.
    pose proof (count_pushes_drop_push awaiting_fee n _ _ Hpush) as Hf.
    cbn in Hd, Hf |- *. lia.
  - destruct Hstep as (hashed & Hpush & ->).
    cbn [pushes output turns]. rewrite !filter_app, !length_app.
    pose proof (count_pushes_set_push awaiting_data n _ (Sent true) _ Hpush) as Hd.
    pose proof (count_pushes_set_push awaiting_fee n _ (Sent true) _ Hpush) as Hf.
    cbn in Hd, Hf |- *. lia.
  - destruct Hstep as (hashed & Hpush & ->).
    cbn [pushes output turns]. rewrite !filter_app, !length_app.
    pose proof (count_pushes_drop_push awaiting_data n _ _ Hpush) as Hd.
    pose proof (count_pushes_drop_push awaiting_fee n _ _ Hpush) as Hf.
    assert (Hquiet : forall kind,
               In kind [is_fetch; is_fee; is_send; is_sleep] ->
               length (filter kind (fst (onError err))) = 0%nat).
    { intros kind Hkind. unfold onError.
      destruct (includes (message err) no_fresh_prices);
        [|destruct (includes (message err) incorrect_nonce);
          [|destruct (includes (message err) not_enough_funds)]];
        cbn in Hkind |- *;
        destruct Hkind as [<- | [<- | [<- | [<- | []]]]]; reflexivity. }
    rewrite (Hquiet is_fetch), (Hquiet is_fee), (Hquiet is_send), (Hquiet is_sleep)
      by (cbn; tauto).
    cbn in Hd, Hf |- *. lia.
Qed.

(** X11. In every run the process has sent at most as many transactions as
    it has asked fees, asked at most as many fees as it has asked update
    data, asked update data at most once for each turn, and gone to sleep
    exactly once for each turn: nothing is sent without a fee asked before,
    and no fee is asked without update data asked before. *)
Theorem requests_in_order (es : list event) (p : process) :
  runs2 initial es = Some p ->
  (asked is_send p <= asked is_fee p)%nat
  /\ (asked is_fee p <= asked is_fetch p)%nat
  /\ (asked is_fetch p <= turns p)%nat
  /\ asked is_sleep p = turns p.
Proof.
  intros Hrun.
  assert (Hinv : requests_ordered p).
  { apply (runs_invariant requests_ordered step_requests_ordered es initial p);
      [|exact Hrun].
    unfold requests_ordered, asked. cbn. lia. }
  destruct Hinv as (Hfee & Hsend & Hfetch & Hsleep).
  repeat split; try assumption; lia.
Qed.

Lemma step_end_explained (p p' : process) (e : event) :
  end_explained unhandledRejectionsThrow p -> step2 p e = Some p' ->
  end_explained unhandledRejectionsThrow p'.
Proof.
  intros _ Hstep. apply step_inv in Hstep. unfold end_explained.
  assert (Hrejected : forall n err,
             end_explained unhandledRejectionsThrow
               (pushUpdates_rejected unhandledRejectionsThrow p n err)).
  { intros n err thrown. unfold pushUpdates_rejected. cbn [uncaught unhandledRejections].
    destruct unhandledRejectionsThrow; [|discriminate].
    intros [= <-]. left. split; [reflexivity|].
    apply in_or_app. right. left. reflexivity. }
  destruct e as [target source|n data|n err|n fee|n err|n hash|n err].
  - subst p'. cbn. discriminate.
  - destruct Hstep as (prices & ids & pubs & _ & ->). cbn. discriminate.
  - destruct Hstep as (prices & ids & pubs & _ & ->). apply Hrejected.
  - destruct Hstep as (data & ids & pubs & _ & ->). cbn. discriminate.
  - destruct Hstep as (data & ids & pubs & _ & ->). apply Hrejected.
  - destruct Hstep as (hashed & _ & ->). cbn. discriminate.
  - destruct Hstep as (hashed & _ & ->). cbn [uncaught]. intros thrown.
    destruct (snd (onError err)) as [|thrown'] eqn:Hon; [discriminate|].
    intros [= ->]. right. apply onError_throws in Hon.
    destruct Hon as (-> & Hfunds & Hfresh & Hnonce). repeat split; assumption.
Qed.

(** X12. A process ends for one of two reasons only: a rejected request
    that nothing handles, when Node runs in [throw] mode, or an error event
    whose message holds the text of the missing funds and neither of the two
    texts tested before it.  Under [warn] mode, and as long as no error event
    holds the text of the missing funds, the process never ends. *)
Theorem process_ends_for_two_reasons (es : list event) (p : process) (err : Error) :
  runs2 initial es = Some p ->
  uncaught p = Some err ->
  (unhandledRejectionsThrow = true /\ In err (unhandledRejections p))
  \/ (includes (message err) not_enough_funds = true
      /\ includes (message err) no_fresh_prices = false
      /\ includes (message err) incorrect_nonce = false).
Proof.
  intros Hrun.
  apply (runs_invariant (end_explained unhandledRejectionsThrow)
           step_end_explained es initial p); [|exact Hrun].
  intros thrown. cbn. discriminate.
Qed.

(** X13. An error whose message holds none of the three texts is written
    to the console with the error itself, and the listener returns: nothing
    is thrown, no rejection is left, the process lives and the loop can take
    its next turn. *)
Theorem unidentified_error_reported (err : Error) :
  includes (message err) no_fresh_prices = false ->
  includes (message err) incorrect_nonce = false ->
  includes (message err) not_enough_funds = false ->
  onError err = ([Console (ErrorUnidentified err)], Returns)
  /\ forall p n hashed,
      uncaught p = None ->
      push_of n (pushes p) = Some (Sent hashed) ->
      exists p',
        step2 p (TransactionError n err) = Some p'
        /\ output p' = output p ++ [Console (ErrorUnidentified err)]
        /\ unhandledRejections p' = unhandledRejections p
        /\ uncaught p' = None
        /\ forall target source, exists p'', step2 p' (Turn target source) = Some p''.
Proof.
  intros Hfresh Hnonce Hfunds.
  assert (Hon : onError err = ([Console (ErrorUnidentified err)], Returns)).
  { unfold onError. rewrite Hfresh, Hnonce, Hfunds. reflexivity. }
  split; [exact Hon|].
  intros p n hashed Hlive Hpush. unfold step at 1. rewrite Hlive, Hpush, Hon.
  eexists. split; [reflexivity|]. split; [reflexivity|].
  split; [reflexivity|]. split; [reflexivity|].
  intros target source. apply Turn_enabled. reflexivity.
Qed.

(** X14. When the promise of [getUpdateFee(...).call()] is rejected, the
    call of [pushUpdates] ends there: the update data it has fetched are
    dropped and no transaction is sent, then or later.  The rejection is not
    caught; under Node's [throw] mode it ends the process, under [warn] the
    loop takes its next turn. *)
Theorem update_fee_rejection_unhandled (es0 : list event) (p : process) (n : nat)
    (err : Error) (priceFeedUpdateData priceIds : list HexString)
    (pubTimesToPush : list UnixTimestamp) :
  runs2 initial es0 = Some p ->
  uncaught p = None ->
  push_of n (pushes p)
  = Some (AwaitingUpdateFee priceFeedUpdateData priceIds pubTimesToPush) ->
  exists p',
    step2 p (UpdateFeeRejected n err) = Some p'
    /\ output p' = output p
    /\ push_of n (pushes p') = None
    /\ (forall updateFee, step2 p' (UpdateFeeFulfilled n updateFee) = None)
    /\ unhandledRejections p' = unhandledRejections p ++ [err]
    /\ uncaught p' = (if unhandledRejectionsThrow then Some err else None)
    /\ (unhandledRejectionsThrow = false ->
        forall target source, exists p'', step2 p' (Turn target source) = Some p'').
Proof.
  intros Hreach Hlive Hpush.
  pose proof (runs_keys_fresh Number addLeading0x this unhandledRejectionsThrow
                _ _ _ keys_fresh_initial Hreach) as [Hnd _].
  unfold step at 1. rewrite Hlive, Hpush.
  eexists. split; [reflexivity|].
  split; [reflexivity|]. split; [apply push_of_drop_push, Hnd|].
  split.
  - intros updateFee. unfold step. cbn [uncaught pushUpdates_rejected pushes].
    destruct unhandledRejectionsThrow; [reflexivity|].
    rewrite (push_of_drop_push _ _ Hnd). reflexivity.
  - split; [reflexivity|]. split; [reflexivity|].
    intros Hwarn target source. apply Turn_enabled. cbn. rewrite Hwarn. reflexivity.
Qed.

End RunInvariants.

(** ** The further properties at work *)

(** With every threshold at zero, two equal observations are due. *)
Lemma zero_time_threshold_always_updates_witness :
  shouldUpdate NumberOfIntegerText feedZero
    (Some (observation "100" "1" 1000)) (Some (observation "100" "1" 1000)) = true.
Proof.
  apply (zero_time_threshold_always_updates NumberOfIntegerText feedZero).
  - cbn. lia.
  - cbn. lia.
Defined.

Lemma shouldUpdate_monotone_in_age_witness :
  shouldUpdate NumberOfIntegerText feedA
    (Some (observation "100" "1" 1010)) (Some (observation "100" "1" 900)) = true.
Proof.
  apply (shouldUpdate_monotone_in_age NumberOfIntegerText feedA
           (observation "100" "1" 1000) (observation "100" "1" 940)).
  - vm_compute. reflexivity.
  - reflexivity.
  - reflexivity.
  - reflexivity.
  - cbn. lia.
  - cbn. lia.
Defined.

(** A source price that is no number, 50 seconds ahead of the target: the
    time difference decides, and it is short of the 60 seconds. *)
Lemma NaN_source_price_leaves_time_witness :
  shouldUpdate NumberOfIntegerText feedA
    (Some (observation "n/a" "1" 1000)) (Some (observation "100" "1" 950))
  = (timeDifferenceOf (observation "n/a" "1" 1000) (observation "100" "1" 950)
     >=? timeDifference feedA)
  /\ (timeDifferenceOf (observation "n/a" "1" 1000) (observation "100" "1" 950)
      >=? timeDifference feedA) = false.
Proof.
  split.
  - apply (NaN_source_price_leaves_time NumberOfIntegerText feedA).
    + vm_compute. reflexivity.
    + cbn. lia.
  - vm_compute. reflexivity.
Defined.

Lemma negative_target_price_never_deviates_witness :
  geb (priceDeviationPct NumberOfIntegerText
         (observation "110" "1" 1000) (observation "-100" "1" 1000))
      (priceDeviation feedA) = false.
Proof.
  assert (Hneg : number_ltb (NumberOfIntegerText (price (observation "-100" "1" 1000)))
                            (ofZ 0) = true) by (vm_compute; reflexivity).
  assert (Hthr : number_ltb (ofZ 0) (priceDeviation feedA) = true)
    by (vm_compute; reflexivity).
  exact (proj1 (negative_target_price_never_deviates NumberOfIntegerText feedA
                  (observation "110" "1" 1000) (observation "-100" "1" 1000)
                  Hneg Hthr)).
Defined.

(** A confidence of zero reaches the zero threshold. *)
Lemma zero_confidence_threshold_always_updates_witness :
  shouldUpdate NumberOfIntegerText feedConfidence
    (Some (observation "100" "0" 1000)) (Some (observation "100" "1" 1000)) = true.
Proof.
  apply (proj2 (zero_confidence_threshold_always_updates NumberOfIntegerText
                  feedConfidence (observation "100" "0" 1000)
                  (observation "100" "1" 1000))).
  - vm_compute. reflexivity.
  - vm_compute. discriminate.
  - cbn. lia.
Defined.

(** A feed that the target does not know yet is in the batch. *)
Lemma selectBatch_selects_witness :
  In feedA (fst (selectBatch NumberOfIntegerText [feedA] silent sourceA)).
Proof.
  apply (proj2 (proj2 (proj2 (proj2
           (selectBatch_selects NumberOfIntegerText [feedA] silent sourceA))))).
  - left. reflexivity.
  - vm_compute. discriminate.
  - reflexivity.
Defined.

Lemma selectBatch_NoDup_witness :
  NoDup (map id (fst (selectBatch NumberOfIntegerText [feedA; feedZero]
                                  targetA sourceA))).
Proof.
  apply (selectBatch_NoDup NumberOfIntegerText [feedA; feedZero] targetA sourceA).
  cbn. constructor.
  - intros [H | []]. discriminate.
  - constructor; [intros []|constructor].
Defined.

(** The text of the incorrect nonce as a node reports it. *)
Lemma onError_finds_text_inside_witness :
  onError {| message := ("Returned error: " ++ incorrect_nonce
                         ++ " account has nonce of: 5 tx has nonce of: 4")%string |}
  = ([Console LogNonceIncorrect], Returns).
Proof.
  apply (proj2 (onError_finds_text_inside
                  "Returned error: " " account has nonce of: 5 tx has nonce of: 4")).
  vm_compute. reflexivity.
Defined.

Lemma sent_arrays_parallel_witness :
  ["0xaa"] <> [] /\ length ["0xaa"] = length [931].
Proof.
  apply (sent_arrays_parallel NumberOfIntegerText addLeading0x_text pusherA true
           push_sent (after true push_sent) ["0x01"] ["0xaa"] [931] 7).
  - vm_compute. reflexivity.
  - vm_compute. auto 10.
Defined.

Lemma requests_in_order_witness :
  (asked is_send (after true push_sent) <= asked is_fee (after true push_sent))%nat
  /\ (asked is_fee (after true push_sent) <= asked is_fetch (after true push_sent))%nat
  /\ (asked is_fetch (after true push_sent) <= turns (after true push_sent))%nat
  /\ asked is_sleep (after true push_sent) = turns (after true push_sent).
Proof.
  apply (requests_in_order NumberOfIntegerText addLeading0x_text pusherA true push_sent).
  vm_compute. reflexivity.
Defined.

(** The process that the error of the missing funds has ended. *)
Lemma process_ends_for_two_reasons_witness :
  (false = true
   /\ In out_of_funds
         (unhandledRejections
            (after false (push_sent ++ [TransactionError 0 out_of_funds]))))
  \/ (includes (message out_of_funds) not_enough_funds = true
      /\ includes (message out_of_funds) no_fresh_prices = false
      /\ includes (message out_of_funds) incorrect_nonce = false).
Proof.
  apply (process_ends_for_two_reasons NumberOfIntegerText addLeading0x_text pusherA
           false (push_sent ++ [TransactionError 0 out_of_funds])).
  - vm_compute. reflexivity.
  - vm_compute. reflexivity.
Defined.

Lemma unidentified_error_reported_witness :
  onError gateway_timeout = ([Console (ErrorUnidentified gateway_timeout)], Returns)
  /\ exists p',
      step NumberOfIntegerText addLeading0x_text pusherA true (after true push_sent)
           (TransactionError 0 gateway_timeout) = Some p'
      /\ output p'
         = output (after true push_sent) ++ [Console (ErrorUnidentified gateway_timeout)]
      /\ unhandledRejections p' = unhandledRejections (after true push_sent)
      /\ uncaught p' = None
      /\ forall target source,
          exists p'',
            step NumberOfIntegerText addLeading0x_text pusherA true p'
                 (Turn target source) = Some p''.
Proof.
  assert (Hfresh : includes (message gateway_timeout) no_fresh_prices = false)
    by (vm_compute; reflexivity).
  assert (Hnonce : includes (message gateway_timeout) incorrect_nonce = false)
    by (vm_compute; reflexivity).
  assert (Hfunds : includes (message gateway_timeout) not_enough_funds = false)
    by (vm_compute; reflexivity).
  split.
  - apply (unidentified_error_reported NumberOfIntegerText addLeading0x_text pusherA
             true gateway_timeout Hfresh Hnonce Hfunds).
  - apply (proj2 (unidentified_error_reported NumberOfIntegerText addLeading0x_text
                    pusherA true gateway_timeout Hfresh Hnonce Hfunds)
             (after true push_sent) 0%nat false).
    + vm_compute. reflexivity.
    + vm_compute. reflexivity.
Defined.

Lemma update_fee_rejection_unhandled_witness :
  exists p',
    step NumberOfIntegerText addLeading0x_text pusherA false
         (after false [Turn targetA sourceA; UpdateDataFulfilled 0 ["0x01"]])
         (UpdateFeeRejected 0 gateway_timeout) = Some p'
    /\ output p'
       = output (after false [Turn targetA sourceA; UpdateDataFulfilled 0 ["0x01"]])
    /\ push_of 0 (pushes p') = None
    /\ (forall updateFee,
           step NumberOfIntegerText addLeading0x_text pusherA false p'
                (UpdateFeeFulfilled 0 updateFee) = None)
    /\ unhandledRejections p'
       = unhandledRejections
           (after false [Turn targetA sourceA; UpdateDataFulfilled 0 ["0x01"]])
         ++ [gateway_timeout]
    /\ uncaught p' = None
    /\ (false = false ->
        forall target source,
          exists p'',
            step NumberOfIntegerText addLeading0x_text pusherA false p'
                 (Turn target source) = Some p'').
Proof.
  apply (update_fee_rejection_unhandled NumberOfIntegerText addLeading0x_text pusherA
           false [Turn targetA sourceA; UpdateDataFulfilled 0 ["0x01"]]
           (after false [Turn targetA sourceA; UpdateDataFulfilled 0 ["0x01"]]) 0%nat
           gateway_timeout ["0x01"] ["0xaa"] [931]).
  - vm_compute. reflexivity.
  - reflexivity.
  - vm_compute. reflexivity.
Defined.
